(** * Personal Expense Tracker: the ledger store and the reporting engine

    A shallow embedding of [src/expense_tracker.py].  The SQLite file is an
    explicit value of type [db] threaded through every operation, the system
    clock ([datetime.date.today()]) is an explicit argument [today], and an
    exception is a value of type [exn] returned in place of the result.

    Amounts are the [REAL] column of the [expenses] table.  They are modelled
    as rationals ([Q]): sums, differences and comparisons are exact, so the
    statements below are about the arithmetic the program asks for, not about
    binary rounding.  Text is [string] (a sequence of bytes), compared the way
    SQLite's default [BINARY] collation compares [TEXT]. *)

From Stdlib Require Import ZArith QArith Qabs List String Ascii Bool Lia.
From Stdlib Require Import Permutation Sorted DecimalString DecimalZ DecimalPos.
Import ListNotations.

Open Scope string_scope.
Open Scope Z_scope.

(* ------------------------------------------------------------------ *)
(** ** Exceptions and results *)

Inductive exn : Type :=
| ValueError (msg : string)
| OverflowError (msg : string).

Inductive result (A : Type) : Type :=
| Ok (a : A)
| Raise (e : exn).

Arguments Ok {A} a.
Arguments Raise {A} e.

Definition bind {A B : Type} (r : result A) (k : A -> result B) : result B :=
  match r with
  | Ok a => k a
  | Raise e => Raise e
  end.

Notation "x <- r ;; k" := (bind r (fun x => k))
  (at level 61, r at next level, right associativity).

(* ------------------------------------------------------------------ *)
(** ** [datetime.date]: the proleptic Gregorian calendar

    The part of Python's [datetime] module the program uses: [date] values,
    [toordinal]/[fromordinal], [date - timedelta(days=k)], [replace(day=1)],
    [strftime] and [strptime] for the format [DATE_FMT = "%Y-%m-%d"]. *)

Module Datetime.

Record date : Type := mkdate { year : Z; month : Z; day : Z }.

Definition MINYEAR : Z := 1.
Definition MAXYEAR : Z := 9999.
Definition MAXORDINAL : Z := 3652059.

Definition DAYS_IN_MONTH : list Z :=
  [-1; 31; 28; 31; 30; 31; 30; 31; 31; 30; 31; 30; 31].

Definition DAYS_BEFORE_MONTH : list Z :=
  [-1; 0; 31; 59; 90; 120; 151; 181; 212; 243; 273; 304; 334].

Definition table (t : list Z) (i : Z) : Z := nth (Z.to_nat i) t 0.

Definition b2z (b : bool) : Z := if b then 1 else 0.

Definition is_leap (y : Z) : bool :=
  (y mod 4 =? 0) && (negb (y mod 100 =? 0) || (y mod 400 =? 0)).

Definition days_before_year (y : Z) : Z :=
  let y := y - 1 in
  y * 365 + y / 4 - y / 100 + y / 400.

Definition days_in_month (y m : Z) : Z :=
  if (m =? 2) && is_leap y then 29 else table DAYS_IN_MONTH m.

Definition days_before_month (y m : Z) : Z :=
  table DAYS_BEFORE_MONTH m + b2z ((2 <? m) && is_leap y).

Definition ymd2ord (y m d : Z) : Z :=
  days_before_year y + days_before_month y m + d.

Definition DI400Y : Z := 146097.
Definition DI100Y : Z := 36524.
Definition DI4Y : Z := 1461.

Definition ord2ymd (n : Z) : Z * Z * Z :=
  let n := n - 1 in
  let n400 := n / DI400Y in
  let n := n mod DI400Y in
  let y := n400 * 400 + 1 in
  let n100 := n / DI100Y in
  let n := n mod DI100Y in
  let n4 := n / DI4Y in
  let n := n mod DI4Y in
  let n1 := n / 365 in
  let n := n mod 365 in
  let y := y + (n100 * 100 + n4 * 4 + n1) in
  if (n1 =? 4) || (n100 =? 4) then (y - 1, 12, 31)
  else
    let leapyear := (n1 =? 3) && (negb (n4 =? 24) || (n100 =? 3)) in
    let m := Z.shiftr (n + 50) 5 in
    let preceding := table DAYS_BEFORE_MONTH m + b2z ((2 <? m) && leapyear) in
    if n <? preceding then
      let m := m - 1 in
      let preceding :=
        preceding - (table DAYS_IN_MONTH m + b2z ((m =? 2) && leapyear)) in
      (y, m, n - preceding + 1)
    else (y, m, n - preceding + 1).

(** [_check_date_fields]: what the [date] constructor accepts. *)
Definition valid_ymd (y m d : Z) : bool :=
  (MINYEAR <=? y) && (y <=? MAXYEAR) &&
  (1 <=? m) && (m <=? 12) &&
  (1 <=? d) && (d <=? days_in_month y m).

Definition valid (d : date) : bool := valid_ymd (year d) (month d) (day d).

Definition toordinal (d : date) : Z := ymd2ord (year d) (month d) (day d).

Definition fromordinal (n : Z) : date :=
  let '(y, m, d) := ord2ymd n in mkdate y m d.

(** [d - datetime.timedelta(days=k)]. *)
Definition sub_days (d : date) (k : Z) : result date :=
  let o := toordinal d - k in
  if (0 <? o) && (o <=? MAXORDINAL) then Ok (fromordinal o)
  else Raise (OverflowError "date value out of range").

(** [d.replace(day=1)]. *)
Definition replace_day1 (d : date) : date := mkdate (year d) (month d) 1.

(** *** [strftime("%Y-%m-%d")]

    [%Y] is the year with century as a decimal number, documented as
    [0001, ..., 9999]; that is what [pad4] writes.  Python hands the format to
    the C library, and some C libraries write a year below 1000 without the
    leading zeros (999, not 0999).  From the year 1000 on every platform
    writes the four digits of [pad4]. *)

Definition digit (n : Z) : ascii := ascii_of_nat (48 + Z.to_nat n).

Definition pad2 (n : Z) : string :=
  String (digit (n / 10)) (String (digit (n mod 10)) "").

Definition pad4 (n : Z) : string :=
  String (digit (n / 1000)) (String (digit (n / 100 mod 10)) (pad2 (n mod 100))).

Definition strftime (d : date) : string :=
  pad4 (year d) ++ "-" ++ pad2 (month d) ++ "-" ++ pad2 (day d).

(** *** [strptime(s, "%Y-%m-%d")]

    [_strptime] compiles the format to the regular expression
    [(?P<Y>\d\d\d\d)-(?P<m>1[0-2]|0[1-9]|[1-9])-(?P<d>3[01]|[12]\d|0[1-9]|[1-9]| [1-9])],
    takes its first match at the start of the text (alternatives in order, with
    backtracking), refuses text left over after the match, and builds the date
    from the three numbers.  A matcher returns its matches in priority order,
    each with the text that follows it.

    Text is a sequence of bytes here, so [\d] is an ASCII digit; the decimal
    digits of other scripts, which [\d] also matches on a Python [str], have
    no counterpart in this model. *)

Definition is_digit (c : ascii) : bool :=
  let n := Z.of_nat (nat_of_ascii c) in (48 <=? n) && (n <=? 57).

Definition digit_val (c : ascii) : Z := Z.of_nat (nat_of_ascii c) - 48.

Definition in_range (lo hi : Z) (c : ascii) : bool :=
  is_digit c && (lo <=? digit_val c) && (digit_val c <=? hi).

Definition re_year (s : string) : list (Z * string) :=
  match s with
  | String a (String b (String c (String d rest))) =>
      if is_digit a && is_digit b && is_digit c && is_digit d
      then [(digit_val a * 1000 + digit_val b * 100 + digit_val c * 10 + digit_val d, rest)]
      else []
  | _ => []
  end.

Definition re_lit (c : ascii) (s : string) : list string :=
  match s with
  | String a rest => if Ascii.eqb a c then [rest] else []
  | EmptyString => []
  end.

(** Two characters [a b] with [a] a digit in [lo1..hi1] and [b] in [lo2..hi2]. *)
Definition re_two (lo1 hi1 lo2 hi2 : Z) (s : string) : list (Z * string) :=
  match s with
  | String a (String b rest) =>
      if in_range lo1 hi1 a && in_range lo2 hi2 b
      then [(digit_val a * 10 + digit_val b, rest)] else []
  | _ => []
  end.

Definition re_one (lo hi : Z) (s : string) : list (Z * string) :=
  match s with
  | String a rest => if in_range lo hi a then [(digit_val a, rest)] else []
  | EmptyString => []
  end.

Definition re_space_one (s : string) : list (Z * string) :=
  match s with
  | String a rest => if Ascii.eqb a " " then re_one 1 9 rest else []
  | EmptyString => []
  end.

Definition re_month (s : string) : list (Z * string) :=
  re_two 1 1 0 2 s ++ re_two 0 0 1 9 s ++ re_one 1 9 s.

Definition re_day (s : string) : list (Z * string) :=
  re_two 3 3 0 1 s ++ re_two 1 2 0 9 s ++ re_two 0 0 1 9 s
  ++ re_one 1 9 s ++ re_space_one s.

Definition re_date (s : string) : list (Z * Z * Z * string) :=
  flat_map (fun '(y, s1) =>
    flat_map (fun s2 =>
      flat_map (fun '(m, s3) =>
        flat_map (fun s4 =>
          map (fun '(d, s5) => (y, m, d, s5)) (re_day s4))
          (re_lit "-" s3))
        (re_month s2))
      (re_lit "-" s1))
    (re_year s).

(** [datetime.datetime.strptime(s, DATE_FMT).date()]; [None] stands for the
    [ValueError] it raises (no match, unconverted data, or a day that the
    calendar does not have). *)
Definition strptime (s : string) : option date :=
  match re_date s with
  | (y, m, d, rest) :: _ =>
      if (rest =? "")%string && valid_ymd y m d then Some (mkdate y m d) else None
  | [] => None
  end.

End Datetime.

(* ------------------------------------------------------------------ *)
(** ** The [csv] module, default dialect

    [csv.writer(f)] and [csv.reader(f)] with the [excel] dialect: delimiter
    [,], quote character code 34, [doublequote], no escape character,
    [QUOTE_MINIMAL], line terminator CR LF, not strict.  The writer is what
    [export_csv] calls; the reader is what re-reading the exported file means.
    The reader has a field size limit ([csv.field_size_limit], 131072 unless
    changed): [reader_limited] is the reader under a limit, [reader] the
    reader with the limit out of reach. *)

Module Csv.

Definition delimiter : ascii := ",".
Definition quotechar : ascii := ascii_of_nat 34.
Definition CR : ascii := ascii_of_nat 13.
Definition LF : ascii := ascii_of_nat 10.
Definition lineterminator : string := String CR (String LF "").

Fixpoint mem_char (c : ascii) (s : string) : bool :=
  match s with
  | EmptyString => false
  | String a s' => Ascii.eqb c a || mem_char c s'
  end.

(** *** Writer *)

(** The characters that make [join_append_data] quote a field. *)
Definition special (c : ascii) : bool :=
  Ascii.eqb c delimiter || Ascii.eqb c quotechar || mem_char c lineterminator.

(** First pass of [join_append_data]: does the field need quotes? *)
Fixpoint needs_quotes (f : string) : bool :=
  match f with
  | EmptyString => false
  | String c f' => special c || needs_quotes f'
  end.

(** Copy phase: every quote character is written twice. *)
Fixpoint copy_data (f : string) : string :=
  match f with
  | EmptyString => EmptyString
  | String c f' =>
      if Ascii.eqb c quotechar then String quotechar (String c (copy_data f'))
      else String c (copy_data f')
  end.

Definition join_append (quoted : bool) (f : string) : string :=
  if quoted then String quotechar (copy_data f ++ String quotechar "")
  else copy_data f.

Fixpoint join (num_fields : nat) (fields : list string) : string :=
  match fields with
  | [] => ""
  | f :: fs =>
      (if (0 <? num_fields)%nat then String delimiter "" else "")
      ++ join_append (needs_quotes f) f ++ join (S num_fields) fs
  end.

(** [writer.writerow(fields)]: the text appended to the file.  A record of one
    empty field is written as an empty quoted field. *)
Definition writerow (fields : list string) : string :=
  let rec := join 0 fields in
  let rec :=
    if (0 <? List.length fields)%nat && (rec =? "")%string
    then join_append true "" else rec in
  rec ++ lineterminator.

Fixpoint writerows (rows : list (list string)) : string :=
  match rows with
  | [] => ""
  | r :: rs => writerow r ++ writerows rs
  end.

(** *** Reader *)

Inductive input : Type := Ch (c : ascii) | EOL.

Inductive parser_state : Type :=
| START_RECORD | START_FIELD | IN_FIELD
| IN_QUOTED_FIELD | QUOTE_IN_QUOTED_FIELD | EAT_CRNL.

Record parser : Type :=
  mkparser { state : parser_state; field : string; fields : list string }.

Definition parse_reset : parser := mkparser START_RECORD "" [].

Definition set_state (s : parser_state) (p : parser) : parser :=
  mkparser s (field p) (fields p).

Definition parse_add_char (p : parser) (c : ascii) : parser :=
  mkparser (state p) (field p ++ String c "") (fields p).

Definition parse_save_field (p : parser) : parser :=
  mkparser (state p) "" (fields p ++ [field p]).

Definition is_newline (c : ascii) : bool := Ascii.eqb c LF || Ascii.eqb c CR.

Definition start_field (p : parser) (i : input) : option parser :=
  match i with
  | EOL => Some (set_state START_RECORD (parse_save_field p))
  | Ch c =>
      if is_newline c then Some (set_state EAT_CRNL (parse_save_field p))
      else if Ascii.eqb c quotechar then Some (set_state IN_QUOTED_FIELD p)
      else if Ascii.eqb c delimiter then Some (parse_save_field p)
      else Some (set_state IN_FIELD (parse_add_char p c))
  end.

(** [parse_process_char]; [None] is [csv.Error]. *)
Definition parse_process_char (p : parser) (i : input) : option parser :=
  match state p with
  | START_RECORD =>
      match i with
      | EOL => Some p
      | Ch c =>
          if is_newline c then Some (set_state EAT_CRNL p)
          else start_field (set_state START_FIELD p) i
      end
  | START_FIELD => start_field p i
  | IN_FIELD =>
      match i with
      | EOL => Some (set_state START_RECORD (parse_save_field p))
      | Ch c =>
          if is_newline c then Some (set_state EAT_CRNL (parse_save_field p))
          else if Ascii.eqb c delimiter
               then Some (set_state START_FIELD (parse_save_field p))
          else Some (parse_add_char p c)
      end
  | IN_QUOTED_FIELD =>
      match i with
      | EOL => Some p
      | Ch c =>
          if Ascii.eqb c quotechar then Some (set_state QUOTE_IN_QUOTED_FIELD p)
          else Some (parse_add_char p c)
      end
  | QUOTE_IN_QUOTED_FIELD =>
      match i with
      | EOL => Some (set_state START_RECORD (parse_save_field p))
      | Ch c =>
          if Ascii.eqb c quotechar
          then Some (set_state IN_QUOTED_FIELD (parse_add_char p c))
          else if Ascii.eqb c delimiter
               then Some (set_state START_FIELD (parse_save_field p))
          else if is_newline c then Some (set_state EAT_CRNL (parse_save_field p))
          else Some (set_state IN_FIELD (parse_add_char p c))
      end
  | EAT_CRNL =>
      match i with
      | EOL => Some (set_state START_RECORD p)
      | Ch c => if is_newline c then Some p else None
      end
  end.

Fixpoint parse_chars (p : parser) (line : string) : option parser :=
  match line with
  | EmptyString => Some p
  | String c line' =>
      match parse_process_char p (Ch c) with
      | Some p' => parse_chars p' line'
      | None => None
      end
  end.

(** One line of input: its characters, then [EOL]. *)
Definition parse_line (p : parser) (line : string) : option parser :=
  match parse_chars p line with
  | Some p' => parse_process_char p' EOL
  | None => None
  end.

Definition is_start_record (s : parser_state) : bool :=
  match s with START_RECORD => true | _ => false end.

Definition is_in_quoted_field (s : parser_state) : bool :=
  match s with IN_QUOTED_FIELD => true | _ => false end.

(** Iterating the reader to exhaustion: [Reader_iternext] consumes lines until
    the state is back to [START_RECORD] and yields the fields; at the end of
    the input a record in progress is yielded when it holds something. *)
Fixpoint reader_loop (p : parser) (lines : list string)
  : option (list (list string)) :=
  match lines with
  | [] =>
      if negb (field p =? "")%string || is_in_quoted_field (state p)
      then Some [fields (parse_save_field p)] else Some []
  | l :: ls =>
      match parse_line p l with
      | None => None
      | Some p' =>
          if is_start_record (state p')
          then option_map (cons (fields p')) (reader_loop parse_reset ls)
          else reader_loop p' ls
      end
  end.

Definition starts_with_LF (s : string) : bool :=
  match s with
  | String c _ => Ascii.eqb c LF
  | EmptyString => false
  end.

(** The lines of a text file opened with [newline=''], line ends kept: a line
    ends after LF, after CR LF, or after a CR that no LF follows. *)
Fixpoint lines_from (cur : string) (s : string) : list string :=
  match s with
  | EmptyString => if (cur =? "")%string then [] else [cur]
  | String c s' =>
      if Ascii.eqb c LF || (Ascii.eqb c CR && negb (starts_with_LF s'))
      then (cur ++ String c "") :: lines_from "" s'
      else lines_from (cur ++ String c "") s'
  end.

Definition file_lines (s : string) : list string := lines_from "" s.

(** [list(csv.reader(f))]. *)
Definition reader (text : string) : option (list (list string)) :=
  reader_loop parse_reset (file_lines text).

(** *** The reader under a field size limit

    [parse_add_char] raises [csv.Error] when the field already holds
    [field_limit] characters; everything else is as above. *)









End Csv.

(* ------------------------------------------------------------------ *)
(** ** Generic helpers: ordering and SQL aggregates *)

(** [ORDER BY]: rows sorted so that [before a b] holds for [a] ahead of [b]. *)
Fixpoint insert_by {A : Type} (before : A -> A -> bool) (x : A) (l : list A)
  : list A :=
  match l with
  | [] => [x]
  | y :: l' => if before x y then x :: y :: l' else y :: insert_by before x l'
  end.

Definition sort_by {A : Type} (before : A -> A -> bool) (l : list A) : list A :=
  fold_right (insert_by before) [] l.

Definition Qltb (x y : Q) : bool := negb (Qle_bool y x).

(** SQL [SUM] over a column: [NULL] (here [None]) over no rows.  The rows are
    added in the order of the column, from zero; the additions are exact, where
    SQLite's are the rounded additions of doubles, so only the statements that
    do not reorder or regroup a sum carry over to the program digit for
    digit. *)
Definition sql_sum (col : list Q) : option Q :=
  match col with
  | [] => None
  | _ => Some (fold_left Qplus col 0%Q)
  end.

(** Python truthiness of a number and of an optional text. *)
Definition truthy_float (x : Q) : bool := negb (Qeq_bool x 0).

Definition truthy_str (s : option string) : bool :=
  match s with
  | Some s => negb (s =? "")%string
  | None => false
  end.

(** The text of an exact sum of the column, as mathematics writes it. *)
Definition Qsum (l : list Q) : Q := fold_right Qplus 0%Q l.

(* ------------------------------------------------------------------ *)
(** ** The persisted store

    Table [expenses(id INTEGER PRIMARY KEY AUTOINCREMENT, category, amount,
    date, note)], rows in insertion order, with SQLite's [sqlite_sequence]
    counter for the table, and table [settings(key PRIMARY KEY, value)].  The
    [value] of key [budget] is [str(amount)] and is read back with [float]; it
    is held as the number it denotes. *)

Record expense : Type := mkexpense {
  e_id : Z;
  e_category : string;
  e_amount : Q;
  e_date : string;
  e_note : string
}.

Record db : Type := mkdb {
  expenses : list expense;
  sqlite_sequence : Z;
  settings : list (string * Q)
}.

(** What [init_db] creates where no file exists. *)
Definition init_db : db := mkdb [] 0 [].

(** A formatted string: literal text and interpolated numbers, in order. *)
Inductive piece : Type :=
| Lit (s : string)
| Num (x : Q).

Definition message : Type := list piece.

(** *** Budget helpers *)

Fixpoint settings_get (key : string) (t : list (string * Q)) : option Q :=
  match t with
  | [] => None
  | (k, v) :: t' => if (k =? key)%string then Some v else settings_get key t'
  end.

(** [INSERT OR REPLACE INTO settings]. *)
Definition settings_put (key : string) (v : Q) (t : list (string * Q))
  : list (string * Q) :=
  (key, v) :: filter (fun kv => negb (fst kv =? key)%string) t.

Definition set_budget_limit (amount : Q) (d : db) : db :=
  mkdb (expenses d) (sqlite_sequence d) (settings_put "budget" amount (settings d)).

Definition get_budget_limit (d : db) : option Q :=
  settings_get "budget" (settings d).

(** [WHERE date >= ? AND date <= ?] on [TEXT]. *)
Definition date_between (start_date end_date : string) (r : expense) : bool :=
  String.leb start_date (e_date r) && String.leb (e_date r) end_date.

Definition get_monthly_total (today : Datetime.date) (d : db) : Q :=
  let start := Datetime.replace_day1 today in
  let end_ := today in
  let row :=
    sql_sum (map e_amount
      (filter (date_between (Datetime.strftime start) (Datetime.strftime end_))
              (expenses d))) in
  match row with
  | Some total => if truthy_float total then total else 0%Q
  | None => 0%Q
  end.

(** *** Expenses *)

(** [INSERT INTO expenses]: the new row gets the next [AUTOINCREMENT] id. *)
Definition insert_expense (category : string) (amount : Q) (date_str note : string)
  (d : db) : db :=
  let rowid := sqlite_sequence d + 1 in
  mkdb (expenses d ++ [mkexpense rowid category amount date_str note])
       rowid (settings d).

(** The formatted warning that [add_expense_db] returns. *)
Definition warning_message (total budget : Q) : message :=
  [Lit "⚠️ Warning: Total monthly expenses ₹"; Num total;
   Lit " exceeded your budget ₹"; Num budget; Lit "!"].

Definition add_expense_db (today : Datetime.date) (category : string)
  (amount : Q) (date_str : string) (note : string) (d : db)
  : result (option message) * db :=
  let validated :=
    if (date_str =? "")%string then Ok (Datetime.strftime today)
    else
      match Datetime.strptime date_str with
      | Some dt => Ok (Datetime.strftime dt)
      | None => Raise (ValueError "Date must be in YYYY-MM-DD format")
      end in
  match validated with
  | Raise e => (Raise e, d)
  | Ok date_str =>
      let d := insert_expense category amount date_str note d in
      (* After adding, check budget *)
      let warning :=
        match get_budget_limit d with
        | Some budget =>
            let total := get_monthly_total today d in
            if Qltb budget total then Some (warning_message total budget)
            else None
        | None => None
        end in
      (Ok warning, d)
  end.

(** [GROUP BY category] with [SUM(amount)]: one accumulator per category. *)
Fixpoint group_add (c : string) (a : Q) (groups : list (string * Q))
  : list (string * Q) :=
  match groups with
  | [] => [(c, (0 + a)%Q)]
  | (c', t) :: g =>
      if (c' =? c)%string then (c', (t + a)%Q) :: g
      else (c', t) :: group_add c a g
  end.

Definition group_sum (rows : list expense) : list (string * Q) :=
  fold_left (fun g r => group_add (e_category r) (e_amount r) g) rows [].

(** [ORDER BY total DESC]. *)
Definition total_before (p q : string * Q) : bool := Qle_bool (snd q) (snd p).

Definition get_summary_range (start_date end_date : string) (d : db)
  : list (string * Q) :=
  sort_by total_before
    (group_sum (filter (date_between start_date end_date) (expenses d))).

(** The [if]/[elif]/[else] of [get_summary_period]: the range of a period. *)
Definition period_range (today : Datetime.date) (period : string)
  : result (Datetime.date * Datetime.date) :=
  if (period =? "weekly")%string then
    start <- Datetime.sub_days today 6 ;;  (* last 7 days inclusive *)
    Ok (start, today)
  else if (period =? "monthly")%string then
    Ok (Datetime.replace_day1 today, today)
  else Raise (ValueError "Unknown period").

Definition get_summary_period (today : Datetime.date) (period : string) (d : db)
  : result (list (string * Q)) :=
  range <- period_range today period ;;
  Ok (get_summary_range (Datetime.strftime (fst range))
                        (Datetime.strftime (snd range)) d).

(** [ORDER BY date DESC, id DESC]. *)
Definition entry_before (r1 r2 : expense) : bool :=
  String.ltb (e_date r2) (e_date r1)
  || ((e_date r1 =? e_date r2)%string && (e_id r2 <=? e_id r1)).

(** [start_date and end_date]: both bounds when both are given and not empty
    (an argument left at its default is [None]). *)
Definition both_given (start_date end_date : option string)
  : option (string * string) :=
  match start_date, end_date with
  | Some s, Some e =>
      if truthy_str (Some s) && truthy_str (Some e) then Some (s, e) else None
  | _, _ => None
  end.

Definition get_entries_range (start_date end_date : option string) (d : db)
  : list expense :=
  match both_given start_date end_date with
  | Some (s, e) =>
      sort_by entry_before (filter (date_between s e) (expenses d))
  | None => sort_by entry_before (expenses d)
  end.

Definition delete_entry_db (entry_id : Z) (d : db) : db :=
  mkdb (filter (fun r => negb (e_id r =? entry_id)) (expenses d))
       (sqlite_sequence d) (settings d).

(** *** CSV export *)

(** [str] of a float and [float] of a text: Python's, which this development
    does not define. *)
Class FloatText : Type := {
  repr_float : Q -> string;
  float_of_text : string -> option Q
}.

Definition str_int (z : Z) : string := NilZero.string_of_int (Z.to_int z).


Section CsvExport.

Context {FT : FloatText}.

(** The row tuple as the writer stringifies it. *)
Definition row_fields (r : expense) : list string :=
  [str_int (e_id r); e_category r; repr_float (e_amount r); e_date r; e_note r].

Definition csv_header : list string := ["id"; "category"; "amount"; "date"; "note"].

(** [export_csv(filename, start_date, end_date)]: the content of the file. *)
Definition export_csv (start_date end_date : option string) (d : db) : string :=
  let rows :=
    match both_given start_date end_date with
    | Some _ => get_entries_range start_date end_date d
    | None => get_entries_range None None d
    end in
  Csv.writerow csv_header ++ Csv.writerows (map row_fields rows).




(** *** The two front ends of [Add]

    [cli_add] and [ExpenseTrackerApp.add_expense_gui], from the texts they
    read (already stripped) to what they show and the store they leave. *)

Definition float_of_input (amt : string) : result Q :=
  match float_of_text amt with
  | Some a => Ok a
  | None => Raise (ValueError ("could not convert string to float: '" ++ amt ++ "'"))
  end.

Definition exn_text (e : exn) : string :=
  match e with
  | ValueError msg => msg
  | OverflowError msg => msg
  end.

Definition cli_add (today : Datetime.date) (cat amt note date : string) (d : db)
  : list message * db :=
  match float_of_input amt with
  | Raise e => ([[Lit "Error adding expense:"; Lit " "; Lit (exn_text e)]], d)
  | Ok a =>
      match add_expense_db today cat a date note d with
      | (Raise e, d') =>
          ([[Lit "Error adding expense:"; Lit " "; Lit (exn_text e)]], d')
      | (Ok warning, d') =>
          ([Lit "✅ Expense added."]
           :: match warning with Some w => [w] | None => [] end, d')
      end
  end.

Inductive dialog : Type :=
| showerror (title : string) (text : message)
| showwarning (title : string) (text : message)
| showinfo (title : string) (text : message).

Definition add_expense_gui (today : Datetime.date) (cat amt date note : string)
  (d : db) : dialog * db :=
  if (cat =? "")%string || (amt =? "")%string then
    (showerror "Error" [Lit "Please enter category and amount"], d)
  else
    match float_of_input amt with
    | Raise e => (showerror "Error" [Lit (exn_text e)], d)
    | Ok a =>
        match add_expense_db today cat a date note d with
        | (Raise e, d') => (showerror "Error" [Lit (exn_text e)], d')
        | (Ok (Some w), d') => (showwarning "Budget Exceeded" w, d')
        | (Ok None, d') => (showinfo "Added" [Lit "Expense added successfully"], d')
        end
    end.

End CsvExport.

(** *** Command-line summary *)

Definition nl : string := String Csv.LF "".

Definition upper (c : ascii) : ascii :=
  let n := nat_of_ascii c in
  if ((97 <=? n) && (n <=? 122))%nat then ascii_of_nat (n - 32) else c.

Definition lower (c : ascii) : ascii :=
  let n := nat_of_ascii c in
  if ((65 <=? n) && (n <=? 90))%nat then ascii_of_nat (n + 32) else c.

Fixpoint map_string (f : ascii -> ascii) (s : string) : string :=
  match s with
  | EmptyString => EmptyString
  | String c s' => String (f c) (map_string f s')
  end.

Definition capitalize (s : string) : string :=
  match s with
  | EmptyString => EmptyString
  | String c s' => String (upper c) (map_string lower s')
  end.

(** The formatted warning line of the summary. *)
Definition exceeded_line (total budget : Q) : message :=
  [Lit "⚠️ WARNING: Expenses exceeded budget by "; Num (total - budget)%Q; Lit nl].

(** Lines 208 to 212: what is printed about the budget below the total. *)
Definition budget_lines (budget : option Q) (total : Q) : list message :=
  match budget with
  | Some budget =>
      if truthy_float budget then
        [Lit "  Budget Limit: "; Num budget]
        :: (if Qltb budget total then [exceeded_line total budget] else [])
      else []
  | None => []
  end.

(** The loop [total += s] over the rows of a summary, from [0.0]; exact
    additions here, rounded additions of doubles in the program. *)
Definition summary_total (rows : list (string * Q)) : Q :=
  fold_left (fun t row => (t + snd row)%Q) rows 0%Q.

(** [cli_show_summary(period)]: the lines it prints. *)
Definition cli_show_summary (today : Datetime.date) (period : string) (d : db)
  : result (list message) :=
  rows <- get_summary_period today period d ;;
  let total := summary_total rows in
  Ok ([[Lit nl; Lit (capitalize period); Lit " summary (";
        Lit (Datetime.strftime today); Lit "):"]]
      ++ (if match rows with [] => true | _ => false end
          then [[Lit "No expenses found for this period."]] else [])
      ++ map (fun row => [Lit "  "; Lit (fst row); Lit ": "; Num (snd row)]) rows
      ++ [[Lit "  TOTAL: "; Num total]]
      ++ budget_lines (get_budget_limit d) total
      ++ [[]])%list.


(* ------------------------------------------------------------------ *)
(** ** The other operations of the front ends *)

Section FrontEnds.

Context {FT : FloatText}.

(** [cli_set_budget], from the text read at the prompt (stripped): what it
    prints and the store it leaves. *)
Definition cli_set_budget (amt : string) (d : db) : list message * db :=
  match float_of_input amt with
  | Ok a => ([[Lit "✅ Budget set to ₹"; Lit amt]], set_budget_limit a d)
  | Raise _ => ([[Lit "Invalid input"]], d)
  end.

(** [ExpenseTrackerApp.export_csv_gui]: [fn] is the file name chosen (empty
    when the dialog is cancelled), [res] the answer to "Export only a date
    range?", [start] and [end_] what the two date dialogs return ([None] when
    cancelled).  The result is the dialog shown and the file written, if any. *)
Definition export_csv_gui (fn : string) (res : bool) (start end_ : option string)
  (d : db) : option dialog * option string :=
  if (fn =? "")%string then (None, None)
  else if res then
    if negb (truthy_str start) || negb (truthy_str end_) then
      (Some (showerror "Error" [Lit "Start and end date required"]), None)
    else
      (Some (showinfo "Exported" [Lit "Saved to "; Lit fn]),
       Some (export_csv start end_ d))
  else
    (Some (showinfo "Exported" [Lit "Saved to "; Lit fn]),
     Some (export_csv None None d)).

End FrontEnds.

(** [ExpenseTrackerApp.set_budget_gui]: [amt] is what [askfloat] returns,
    [None] when the dialog is cancelled. *)
Definition set_budget_gui (amt : option Q) (d : db) : option dialog * db :=
  match amt with
  | Some a =>
      if truthy_float a
      then (Some (showinfo "Budget Set" [Lit "Budget set to ₹"; Num a]),
            set_budget_limit a d)
      else (None, d)
  | None => (None, d)
  end.

(** The labels [show_summary_gui] adds below the total. *)
Definition gui_budget_labels (budget : option Q) (total_sum : Q) : list message :=
  match budget with
  | Some budget =>
      if truthy_float budget then
        [Lit "Budget Limit: "; Num budget]
        :: (if Qltb budget total_sum
            then [[Lit "⚠️ Exceeded by "; Num (total_sum - budget)%Q]]
            else [])
      else []
  | None => []
  end.

(** [ExpenseTrackerApp.show_summary_gui(period)]: the rows of the table and
    the labels of the window. *)
Definition show_summary_gui (today : Datetime.date) (period : string) (d : db)
  : result (list (string * Q) * list message) :=
  rows <- get_summary_period today period d ;;
  let total_sum := summary_total rows in
  Ok (rows,
      ([Lit "TOTAL: "; Num total_sum]
       :: gui_budget_labels (get_budget_limit d) total_sum)).

(** [ExpenseTrackerApp.delete_selected]: [selection] is the id shown in the
    selected row of the table ([None] when no row is selected), [answer] the
    reply to the confirmation. *)
Definition delete_selected (selection : option Z) (answer : bool) (d : db)
  : option dialog * db :=
  match selection with
  | None => (Some (showerror "Error" [Lit "Select a row to delete"]), d)
  | Some entry_id =>
      if answer
      then (Some (showinfo "Deleted" [Lit "Entry deleted"]),
            delete_entry_db entry_id d)
      else (None, d)
  end.
(* ------------------------------------------------------------------ *)
(** ** Vocabulary of the statements *)

Import Datetime.

(** The month and the day of the month of the [n]-th day (from 0) of a year,
    as the second half of [ord2ymd] computes them. *)
Definition month_day (leapyear : bool) (n : Z) : Z * Z :=
  let m := Z.shiftr (n + 50) 5 in
  let preceding := table DAYS_BEFORE_MONTH m + b2z ((2 <? m) && leapyear) in
  if n <? preceding then
    let m := m - 1 in
    let preceding :=
      preceding - (table DAYS_IN_MONTH m + b2z ((m =? 2) && leapyear)) in
    (m, n - preceding + 1)
  else (m, n - preceding + 1).

Definition month_day_ok (leapyear : bool) (n : Z) : bool :=
  let '(m, d) := month_day leapyear n in
  (1 <=? m) && (m <=? 12) && (1 <=? d)
  && (d <=? (if (m =? 2) && leapyear then 29 else table DAYS_IN_MONTH m))
  && (table DAYS_BEFORE_MONTH m + b2z ((2 <? m) && leapyear) + d =? n + 1).

(** Newest first: a later date, or the same date and an id at least as large. *)
Definition newer_first (r1 r2 : expense) : Prop :=
  String.ltb (e_date r2) (e_date r1) = true
  \/ (e_date r1 = e_date r2 /\ e_id r2 <= e_id r1).


(** A record's date lies in the inclusive range, as [TEXT] compares. *)
Definition in_date_range (start_date end_date : string) (r : expense) : Prop :=
  String.leb start_date (e_date r) = true /\ String.leb (e_date r) end_date = true.

(** The month-to-date total as the specification words it: the sum of the
    amounts of the records dated from the first day of the current month to
    today, both included. *)
Definition month_to_date (today : date) (d : db) : Q :=
  Qsum (map e_amount
    (filter (date_between (strftime (replace_day1 today)) (strftime today))
            (expenses d))).

(** A formatted message shows the number [x]. *)
Definition carries (msg : message) (x : Q) : Prop :=
  exists y, In (Num y) msg /\ (y == x)%Q.

(** A printed line is the summary's budget warning (whatever its amount). *)
Definition is_warning_line (line : message) : Prop :=
  exists x, line = [Lit "⚠️ WARNING: Expenses exceeded budget by "; Num x; Lit nl].

(** The sum of the amounts of the records of [rows] in category [c]. *)
Definition category_total (c : string) (rows : list expense) : Q :=
  Qsum (map e_amount (filter (fun r => (e_category r =? c)%string) rows)).

(** First accumulator of a category in a grouped result. *)
Fixpoint group_get (c : string) (g : list (string * Q)) : option Q :=
  match g with
  | [] => None
  | (c', t) :: g' => if (c' =? c)%string then Some t else group_get c g'
  end.

(** The store of the specification's example: a budget of 500, then 50 on
    food and 900 on rent in March 2024; and the same after 10 more on food. *)
Definition example_march_db : db :=
  let today := mkdate 2024 3 3 in
  let d0 := set_budget_limit 500 init_db in
  let d1 := snd (add_expense_db today "Food" 50 "2024-03-01" "" d0) in
  snd (add_expense_db today "Rent" 900 "2024-03-02" "" d1).

Definition example_march_db_after : db :=
  snd (add_expense_db (mkdate 2024 3 3) "Food" 10 "2024-03-03" "" example_march_db).

(** The reader at work: [p] is the parser as it stood when the current line
    began, [cur] the part of that line already seen, [s] the text to come. *)
Definition reading (p : Csv.parser) (cur s : string) : option (list (list string)) :=
  Csv.reader_loop p (Csv.lines_from cur s).

(** A line ends after [c] when [rest] follows it. *)
Definition ends_line (c : ascii) (rest : string) : bool :=
  Ascii.eqb c Csv.LF || (Ascii.eqb c Csv.CR && negb (Csv.starts_with_LF rest)).

(** The parser has just read the whole of field [f], with [fs] saved before. *)
Definition after_field (q : Csv.parser) (f : string) (fs : list string) : Prop :=
  Csv.field q = f /\ Csv.fields q = fs
  /\ (Csv.state q = Csv.IN_FIELD
      \/ Csv.state q = Csv.QUOTE_IN_QUOTED_FIELD
      \/ (Csv.state q = Csv.START_FIELD /\ f = "")
      \/ (Csv.state q = Csv.START_RECORD /\ f = "" /\ fs = [])).




(** Folding the calendar's constants in a goal. *)
Ltac calendar_consts :=
  change (table DAYS_BEFORE_MONTH 12) with 334;
  change (table DAYS_IN_MONTH 12) with 31;
  change (2 <? 12) with true; change (12 =? 2) with false;
  change (3 =? 3) with true; change (24 =? 24) with true;
  cbn [andb orb negb b2z].

Ltac eval_tables :=
  repeat match goal with
  | |- context [table ?t ?i] =>
      let v := eval vm_compute in (table t i) in change (table t i) with v
  | H : context [table ?t ?i] |- _ =>
      let v := eval vm_compute in (table t i) in change (table t i) with v in H
  end.

(** The store as the operations leave it: ids are distinct, positive and at
    most the [AUTOINCREMENT] counter, and every date is the canonical text of
    a date of the calendar. *)
Definition store_ok (d : db) : Prop :=
  NoDup (map e_id (expenses d))
  /\ (forall r, In r (expenses d) -> 0 < e_id r <= sqlite_sequence d)
  /\ (forall r, In r (expenses d) ->
        exists dt, valid dt = true /\ e_date r = strftime dt)
  /\ 0 <= sqlite_sequence d.

(** The mutating operations of the store, each with the clock it runs at
    where it reads it. *)
Inductive op : Type :=
| Add (today : date) (category : string) (amount : Q) (date_str note : string)
| Delete (entry_id : Z)
| SetBudget (amount : Q).

Definition apply_op (o : op) (d : db) : db :=
  match o with
  | Add today category amount date_str note =>
      snd (add_expense_db today category amount date_str note d)
  | Delete entry_id => delete_entry_db entry_id d
  | SetBudget amount => set_budget_limit amount d
  end.

Definition op_clock_ok (o : op) : Prop :=
  match o with
  | Add today _ _ _ _ => valid today = true
  | _ => True
  end.

(** The dates an [Add] works with have years of four digits: the clock's, and
    the date its text parses to (see [strftime]). *)
Definition four_digit_years (today : date) (date_str : string) : Prop :=
  1000 <= year today
  /\ forall dt, strptime date_str = Some dt -> 1000 <= year dt.

(** A text of ASCII characters only. *)
Fixpoint is_ascii_text (s : string) : bool :=
  match s with
  | EmptyString => true
  | String c s' => (nat_of_ascii c <? 128)%nat && is_ascii_text s'
  end.

Definition op_dates_ok (o : op) : Prop :=
  match o with
  | Add today _ _ date_str _ =>
      valid today = true /\ is_ascii_text date_str = true
      /\ four_digit_years today date_str
  | _ => True
  end.

(** A date text of ten characters: the canonical text of a calendar date with
    a year of four digits. *)
Definition ten_character_date (s : string) : Prop :=
  exists dt, valid dt = true /\ 1000 <= year dt /\ s = strftime dt.

(** A field, and the fields a parser holds, within a field size limit. *)
Definition field_fits (limit : Z) (f : string) : Prop :=
  Z.of_nat (String.length f) <= limit.

Definition parser_fits (limit : Z) (p : Csv.parser) : Prop :=
  field_fits limit (Csv.field p) /\ Forall (field_fits limit) (Csv.fields p).


(** The month and day part of [re_date], without the year. *)
Definition re_month_day (s : string) : list (Z * Z * string) :=
  flat_map (fun '(m, s3) =>
    flat_map (fun s4 => map (fun '(d, s5) => (m, d, s5)) (re_day s4))
             (re_lit "-" s3))
    (re_month s).

Definition month_day_text_ok (m d : Z) : bool :=
  match re_month_day (pad2 m ++ "-" ++ pad2 d) with
  | (m', d', rest) :: _ => (m' =? m) && (d' =? d) && (rest =? "")%string
  | [] => false
  end.
(* ------------------------------------------------------------------ *)
(** ** Calendar facts *)

Lemma days_before_year_decomp a b c e :
  0 <= a -> 0 <= b <= 3 -> 0 <= c <= 24 -> 0 <= e <= 3 ->
  days_before_year (400 * a + 100 * b + 4 * c + e + 1)
  = 146097 * a + 36524 * b + 1461 * c + 365 * e.
Proof.
  intros Ha Hb Hc He. unfold days_before_year. cbv zeta.
  replace (400 * a + 100 * b + 4 * c + e + 1 - 1)
    with (400 * a + 100 * b + 4 * c + e) by lia.
  assert ((400 * a + 100 * b + 4 * c + e) / 4 = 100 * a + 25 * b + c) as ->
    by (symmetry; apply Z.div_unique with (r := e); lia).
  assert ((400 * a + 100 * b + 4 * c + e) / 100 = 4 * a + b) as ->
    by (symmetry; apply Z.div_unique with (r := 4 * c + e); lia).
  assert ((400 * a + 100 * b + 4 * c + e) / 400 = a) as ->
    by (symmetry; apply Z.div_unique with (r := 100 * b + 4 * c + e); lia).
  lia.
Qed.

Lemma is_leap_decomp a b c e :
  0 <= a -> 0 <= b <= 3 -> 0 <= c <= 24 -> 0 <= e <= 3 ->
  is_leap (400 * a + 100 * b + 4 * c + e + 1)
  = (e =? 3) && (negb (c =? 24) || (b =? 3)).
Proof.
  intros Ha Hb Hc He. unfold is_leap.
  assert ((400 * a + 100 * b + 4 * c + e + 1) mod 4 = (e + 1) mod 4) as ->.
  { replace (400 * a + 100 * b + 4 * c + e + 1)
      with ((e + 1) + (100 * a + 25 * b + c) * 4) by lia.
    apply Z.mod_add. lia. }
  assert ((400 * a + 100 * b + 4 * c + e + 1) mod 100 = (4 * c + e + 1) mod 100) as ->.
  { replace (400 * a + 100 * b + 4 * c + e + 1)
      with ((4 * c + e + 1) + (4 * a + b) * 100) by lia.
    apply Z.mod_add. lia. }
  assert ((400 * a + 100 * b + 4 * c + e + 1) mod 400
          = (100 * b + 4 * c + e + 1) mod 400) as ->.
  { replace (400 * a + 100 * b + 4 * c + e + 1)
      with ((100 * b + 4 * c + e + 1) + a * 400) by lia.
    apply Z.mod_add. lia. }
  destruct (Z.eqb_spec e 3) as [-> | He3].
  - replace ((3 + 1) mod 4) with 0 by reflexivity. cbn [Z.eqb andb].
    destruct (Z.eqb_spec c 24) as [-> | Hc24].
    + replace ((4 * 24 + 3 + 1) mod 100) with 0 by reflexivity.
      cbn [Z.eqb negb orb].
      destruct (Z.eqb_spec b 3) as [-> | Hb3]; [reflexivity|].
      rewrite Z.mod_small by lia.
      destruct (Z.eqb_spec (100 * b + 4 * 24 + 3 + 1) 0); [lia | reflexivity].
    + rewrite (Z.mod_small (4 * c + 3 + 1)) by lia.
      destruct (Z.eqb_spec (4 * c + 3 + 1) 0); [lia | reflexivity].
  - rewrite (Z.mod_small (e + 1)) by lia.
    destruct (Z.eqb_spec (e + 1) 0); [lia | reflexivity].
Qed.

Lemma month_day_ok_all leapyear n :
  0 <= n < 365 + b2z leapyear -> month_day_ok leapyear n = true.
Proof.
  intros Hn.
  destruct leapyear; cbn [b2z] in Hn.
  - assert (forallb (fun k => month_day_ok true (Z.of_nat k)) (seq 0 366) = true)
      as Hall by (vm_compute; reflexivity).
    rewrite forallb_forall in Hall.
    specialize (Hall (Z.to_nat n)). rewrite Z2Nat.id in Hall by lia.
    apply Hall. apply in_seq. lia.
  - assert (forallb (fun k => month_day_ok false (Z.of_nat k)) (seq 0 365) = true)
      as Hall by (vm_compute; reflexivity).
    rewrite forallb_forall in Hall.
    specialize (Hall (Z.to_nat n)). rewrite Z2Nat.id in Hall by lia.
    apply Hall. apply in_seq. lia.
Qed.

Lemma ord2ymd_month_day n :
  let N := n - 1 in
  let a := N / DI400Y in
  let b := N mod DI400Y / DI100Y in
  let c := N mod DI400Y mod DI100Y / DI4Y in
  let e := N mod DI400Y mod DI100Y mod DI4Y / 365 in
  let r := N mod DI400Y mod DI100Y mod DI4Y mod 365 in
  let y := a * 400 + 1 + (b * 100 + c * 4 + e) in
  ord2ymd n =
  if (e =? 4) || (b =? 4) then (y - 1, 12, 31)
  else
    let md := month_day ((e =? 3) && (negb (c =? 24) || (b =? 3))) r in
    (y, fst md, snd md).
Proof.
  cbv zeta. unfold ord2ymd, month_day. cbv zeta.
  destruct ((_ =? 4) || (_ =? 4)); [reflexivity|].
  destruct (_ <? _); reflexivity.
Qed.

Lemma ord2ymd_spec n :
  1 <= n ->
  let '(y, m, d) := ord2ymd n in
  ymd2ord y m d = n /\ 1 <= y /\ 1 <= m <= 12 /\ 1 <= d <= days_in_month y m.
Proof.
  intros Hn. rewrite ord2ymd_month_day. cbv zeta.
  unfold DI400Y, DI100Y, DI4Y.
  set (N := n - 1).
  assert (0 <= N) as HN by (unfold N; lia).
  assert (n = N + 1) as EN by (unfold N; lia).
  pose proof (Z.div_mod N 146097 ltac:(lia)) as E1.
  pose proof (Z.mod_pos_bound N 146097 ltac:(lia)) as B1.
  set (a := N / 146097) in *. set (r1 := N mod 146097) in *.
  assert (0 <= a) as Ha by lia.
  pose proof (Z.div_mod r1 36524 ltac:(lia)) as E2.
  pose proof (Z.mod_pos_bound r1 36524 ltac:(lia)) as B2.
  set (b := r1 / 36524) in *. set (r2 := r1 mod 36524) in *.
  assert (0 <= b <= 4) as Hb by lia.
  pose proof (Z.div_mod r2 1461 ltac:(lia)) as E3.
  pose proof (Z.mod_pos_bound r2 1461 ltac:(lia)) as B3.
  set (c := r2 / 1461) in *. set (r3 := r2 mod 1461) in *.
  assert (0 <= c <= 24) as Hc by lia.
  pose proof (Z.div_mod r3 365 ltac:(lia)) as E4.
  pose proof (Z.mod_pos_bound r3 365 ltac:(lia)) as B4.
  set (e := r3 / 365) in *. set (r := r3 mod 365) in *.
  assert (0 <= e <= 4) as He by lia.
  destruct (Z.eqb_spec e 4) as [He4 | He4]; cbn [orb].
  - (* the last day of a leap year that ends a 4-year cycle *)
    assert (r = 0) by lia. assert (b <= 3) by lia.
    replace (a * 400 + 1 + (b * 100 + c * 4 + e) - 1)
      with (400 * a + 100 * b + 4 * c + 3 + 1) by lia.
    unfold ymd2ord, days_before_month, days_in_month.
    rewrite days_before_year_decomp, is_leap_decomp by lia.
    assert (negb (c =? 24) || (b =? 3) = true) as Hl.
    { destruct (Z.eqb_spec c 24); [|reflexivity].
      destruct (Z.eqb_spec b 3); [reflexivity|]. lia. }
    change (3 =? 3) with true. rewrite Hl. calendar_consts. lia.
  - destruct (Z.eqb_spec b 4) as [Hb4 | Hb4].
    + (* the last day of a 400-year cycle *)
      assert (r2 = 0) by lia. assert (c = 0) by lia. assert (e = 0) by lia.
      replace (a * 400 + 1 + (b * 100 + c * 4 + e) - 1)
        with (400 * a + 100 * 3 + 4 * 24 + 3 + 1) by lia.
      unfold ymd2ord, days_before_month, days_in_month.
      rewrite days_before_year_decomp, is_leap_decomp by lia.
      calendar_consts. lia.
    + cbv zeta.
      replace (a * 400 + 1 + (b * 100 + c * 4 + e))
        with (400 * a + 100 * b + 4 * c + e + 1) by lia.
      set (leapyear := (e =? 3) && (negb (c =? 24) || (b =? 3))).
      assert (0 <= r < 365 + b2z leapyear) as Hr.
      { split; [lia|]. destruct leapyear; cbn; lia. }
      pose proof (month_day_ok_all leapyear r Hr) as Hok.
      unfold month_day_ok in Hok.
      destruct (month_day leapyear r) as [m d]. cbn [fst snd].
      rewrite !andb_true_iff in Hok.
      destruct Hok as [[[[H1 H2] H3] H4] H5].
      unfold ymd2ord, days_before_month, days_in_month.
      rewrite days_before_year_decomp, is_leap_decomp by lia.
      fold leapyear.
      apply Z.leb_le in H1, H2, H3, H4. apply Z.eqb_eq in H5.
      repeat split; try lia.
Qed.

Lemma toordinal_fromordinal n : 1 <= n -> toordinal (fromordinal n) = n.
Proof.
  intros Hn. pose proof (ord2ymd_spec n Hn) as H.
  unfold toordinal, fromordinal.
  destruct (ord2ymd n) as [[y m] d]. cbn. apply H.
Qed.

(* ------------------------------------------------------------------ *)
(** ** Ordering facts *)

Lemma StronglySorted_weaken {A : Type} (R R' : A -> A -> Prop) l :
  (forall a b, R a b -> R' a b) -> StronglySorted R l -> StronglySorted R' l.
Proof.
  intros Himp. induction 1 as [|a l Hs IH Ha]; constructor; [exact IH|].
  eapply Forall_impl; [|exact Ha]. intros b. apply Himp.
Qed.

Section SortBy.

Context {A : Type} (before : A -> A -> bool).

Lemma insert_by_perm x l : Permutation (insert_by before x l) (x :: l).
Proof.
  induction l as [|y l IH]; cbn.
  - reflexivity.
  - destruct (before x y).
    + reflexivity.
    + rewrite IH. apply perm_swap.
Qed.

Lemma sort_by_perm l : Permutation (sort_by before l) l.
Proof.
  induction l as [|x l IH]; cbn.
  - reflexivity.
  - rewrite insert_by_perm. now constructor.
Qed.

Lemma sort_by_In x l : In x (sort_by before l) <-> In x l.
Proof.
  split; apply Permutation_in; [|symmetry]; apply sort_by_perm.
Qed.

Hypothesis before_total : forall a b, before a b = true \/ before b a = true.
Hypothesis before_trans :
  forall a b c, before a b = true -> before b c = true -> before a c = true.

Let ahead (a b : A) : Prop := before a b = true.

Lemma insert_by_sorted x l :
  StronglySorted ahead l -> StronglySorted ahead (insert_by before x l).
Proof.
  induction 1 as [|y l Hs IH Hy]; cbn.
  - repeat constructor.
  - destruct (before x y) eqn:E.
    + constructor; [now constructor|].
      constructor; [exact E|].
      rewrite Forall_forall in *. intros z Hz.
      eapply before_trans; [exact E|]. now apply Hy.
    + constructor; [exact IH|].
      rewrite Forall_forall in *. intros z Hz.
      apply (Permutation_in _ (insert_by_perm x l)) in Hz.
      destruct Hz as [<- | Hz]; [|now apply Hy].
      destruct (before_total x y) as [H | H]; [congruence | exact H].
Qed.

Lemma sort_by_sorted l : StronglySorted ahead (sort_by before l).
Proof.
  induction l as [|x l IH]; cbn.
  - constructor.
  - now apply insert_by_sorted.
Qed.

End SortBy.

Lemma string_app_assoc (a b c : string) : ((a ++ b) ++ c = a ++ (b ++ c))%string.
Proof. induction a as [|x a IH]; cbn; [reflexivity | now rewrite IH]. Qed.

Lemma string_app_nil_r (a : string) : (a ++ "" = a)%string.
Proof. induction a as [|x a IH]; cbn; [reflexivity | now rewrite IH]. Qed.

Lemma ascii_compare_refl c : Ascii.compare c c = Eq.
Proof. apply N.compare_refl. Qed.

Lemma ascii_compare_lt_trans a b c :
  Ascii.compare a b = Lt -> Ascii.compare b c = Lt -> Ascii.compare a c = Lt.
Proof.
  unfold Ascii.compare. rewrite !N.compare_lt_iff. apply N.lt_trans.
Qed.

Lemma string_compare_refl s : String.compare s s = Eq.
Proof.
  induction s as [|c s IH]; cbn; [reflexivity|].
  now rewrite ascii_compare_refl.
Qed.

Lemma string_compare_lt_trans s1 s2 s3 :
  String.compare s1 s2 = Lt -> String.compare s2 s3 = Lt ->
  String.compare s1 s3 = Lt.
Proof.
  revert s2 s3.
  induction s1 as [|a s1 IH]; intros [|b s2] [|c s3]; cbn; try congruence.
  destruct (Ascii.compare a b) eqn:Eab; try discriminate.
  - apply Ascii.compare_eq_iff in Eab. subst b.
    destruct (Ascii.compare a c) eqn:Eac; try congruence.
    apply IH.
  - intros _.
    destruct (Ascii.compare b c) eqn:Ebc; try discriminate.
    + apply Ascii.compare_eq_iff in Ebc. subst c. now rewrite Eab.
    + intros _. now rewrite (ascii_compare_lt_trans _ _ _ Eab Ebc).
Qed.

Lemma string_ltb_lt s1 s2 : String.ltb s1 s2 = true <-> String.compare s1 s2 = Lt.
Proof. unfold String.ltb. destruct (String.compare s1 s2); split; congruence. Qed.

Lemma string_ltb_irrefl s : String.ltb s s = false.
Proof. unfold String.ltb. now rewrite string_compare_refl. Qed.

Lemma string_trichotomy s1 s2 :
  String.ltb s1 s2 = true \/ s1 = s2 \/ String.ltb s2 s1 = true.
Proof.
  unfold String.ltb. rewrite (String.compare_antisym s2 s1).
  destruct (String.compare s1 s2) eqn:E; cbn; auto.
  apply String.compare_eq_iff in E. auto.
Qed.

Lemma entry_before_spec r1 r2 : entry_before r1 r2 = true <-> newer_first r1 r2.
Proof.
  unfold entry_before, newer_first.
  rewrite orb_true_iff, andb_true_iff, String.eqb_eq, Z.leb_le. reflexivity.
Qed.

Lemma entry_before_total r1 r2 :
  entry_before r1 r2 = true \/ entry_before r2 r1 = true.
Proof.
  rewrite !entry_before_spec. unfold newer_first.
  destruct (string_trichotomy (e_date r1) (e_date r2)) as [H | [H | H]]; auto.
  destruct (Z.le_ge_cases (e_id r1) (e_id r2)); auto.
Qed.

Lemma entry_before_trans r1 r2 r3 :
  entry_before r1 r2 = true -> entry_before r2 r3 = true ->
  entry_before r1 r3 = true.
Proof.
  rewrite !entry_before_spec. unfold newer_first.
  intros [H12 | [E12 L12]] [H23 | [E23 L23]].
  - left. apply string_ltb_lt in H12, H23. apply string_ltb_lt.
    eapply string_compare_lt_trans; eassumption.
  - left. now rewrite <- E23.
  - left. now rewrite E12.
  - right. split; [congruence | lia].
Qed.

(* ------------------------------------------------------------------ *)
(** ** Listing and deleting *)

Lemma date_between_spec s e r :
  date_between s e r = true <-> in_date_range s e r.
Proof. unfold date_between, in_date_range. apply andb_true_iff. Qed.

Lemma entries_sorted l : StronglySorted newer_first (sort_by entry_before l).
Proof.
  eapply StronglySorted_weaken;
    [|apply (sort_by_sorted entry_before entry_before_total entry_before_trans)].
  intros r1 r2 H. now apply entry_before_spec.
Qed.

Lemma both_given_nonempty s e :
  s <> "" -> e <> "" -> both_given (Some s) (Some e) = Some (s, e).
Proof.
  intros Hs He. unfold both_given, truthy_str.
  apply String.eqb_neq in Hs, He. now rewrite Hs, He.
Qed.

(** C9: [List] is ordered newest first (date descending, then id descending);
    with a range of two non-empty bounds it returns exactly the records whose
    date lies in the range, and with no range it returns every record. *)
Theorem get_entries_range_newest_first_exact (d : db) :
  (forall s e, s <> "" -> e <> "" ->
     StronglySorted newer_first (get_entries_range (Some s) (Some e) d)
     /\ Permutation (get_entries_range (Some s) (Some e) d)
                    (filter (date_between s e) (expenses d))
     /\ (forall r, In r (get_entries_range (Some s) (Some e) d)
                   <-> In r (expenses d) /\ in_date_range s e r))
  /\ StronglySorted newer_first (get_entries_range None None d)
  /\ Permutation (get_entries_range None None d) (expenses d).
Proof.
  split; [|split].
  - intros s e Hs He. unfold get_entries_range.
    rewrite (both_given_nonempty s e Hs He).
    split; [apply entries_sorted|]. split; [apply sort_by_perm|].
    intros r. rewrite sort_by_In, filter_In, date_between_spec. reflexivity.
  - apply entries_sorted.
  - apply sort_by_perm.
Qed.

Lemma filter_id_when_all {A} (f : A -> bool) l :
  (forall x, In x l -> f x = true) -> filter f l = l.
Proof.
  induction l as [|x l IH]; cbn; intros H; [reflexivity|].
  rewrite (H x) by now left. f_equal. apply IH. intros y Hy. apply H. now right.
Qed.

Lemma filter_idempotent {A} (f : A -> bool) l : filter f (filter f l) = filter f l.
Proof.
  apply filter_id_when_all. intros x Hx. now apply filter_In in Hx.
Qed.

Lemma get_entries_range_In start_date end_date d r :
  In r (get_entries_range start_date end_date d) -> In r (expenses d).
Proof.
  unfold get_entries_range.
  destruct (both_given start_date end_date) as [[s e]|];
    rewrite sort_by_In; [rewrite filter_In|]; tauto.
Qed.

(** C7: [Delete(id)] removes the record with that id and nothing else, never
    fails, and is a no-op when no record has the id; afterwards no listing
    contains the id, and deleting the same id again changes nothing. *)
Theorem delete_entry_db_removes_once (d : db) (entry_id : Z) :
  (forall r, In r (expenses (delete_entry_db entry_id d))
             <-> In r (expenses d) /\ e_id r <> entry_id)
  /\ (forall start_date end_date r,
        In r (get_entries_range start_date end_date (delete_entry_db entry_id d))
        -> e_id r <> entry_id)
  /\ ((forall r, In r (expenses d) -> e_id r <> entry_id)
      -> delete_entry_db entry_id d = d)
  /\ delete_entry_db entry_id (delete_entry_db entry_id d)
     = delete_entry_db entry_id d
  /\ settings (delete_entry_db entry_id d) = settings d.
Proof.
  assert (forall r, In r (expenses (delete_entry_db entry_id d))
                    <-> In r (expenses d) /\ e_id r <> entry_id) as Hin.
  { intros r. cbn. rewrite filter_In, negb_true_iff, Z.eqb_neq. reflexivity. }
  split; [exact Hin|]. split; [|split; [|split]].
  - intros s e r Hr. apply get_entries_range_In in Hr. now apply Hin in Hr.
  - intros Hno. destruct d as [ex sq st]. unfold delete_entry_db. cbn in *.
    f_equal. apply filter_id_when_all. intros r Hr.
    apply negb_true_iff, Z.eqb_neq. now apply Hno.
  - unfold delete_entry_db. cbn. f_equal. apply filter_idempotent.
  - reflexivity.
Qed.

(* ------------------------------------------------------------------ *)
(** ** Adding an expense and the budget check *)

Lemma Qltb_lt x y : Qltb x y = true <-> (x < y)%Q.
Proof.
  unfold Qltb. rewrite negb_true_iff. split.
  - intros H. apply Qnot_le_lt. intros Hle.
    apply Qle_bool_iff in Hle. congruence.
  - intros H. destruct (Qle_bool y x) eqn:E; [|reflexivity].
    apply Qle_bool_iff in E. exfalso. exact (Qlt_not_le _ _ H E).
Qed.

Lemma fold_left_Qplus l a : (fold_left Qplus l a == a + Qsum l)%Q.
Proof.
  revert a. induction l as [|x l IH]; intros a; cbn.
  - now rewrite Qplus_0_r.
  - rewrite IH. now rewrite Qplus_assoc.
Qed.

Lemma sql_sum_total col :
  match sql_sum col with
  | Some t => (t == Qsum col)%Q /\ col <> []
  | None => col = []
  end.
Proof.
  destruct col as [|x col]; cbn; [reflexivity|].
  split; [|discriminate].
  rewrite fold_left_Qplus, Qplus_0_l. reflexivity.
Qed.

Lemma get_monthly_total_month_to_date today d :
  (get_monthly_total today d == month_to_date today d)%Q.
Proof.
  unfold get_monthly_total, month_to_date. cbv zeta.
  set (col := map e_amount _).
  pose proof (sql_sum_total col) as H.
  destruct (sql_sum col) as [t|].
  - destruct H as [H _]. unfold truthy_float.
    destruct (Qeq_bool t 0) eqn:E; cbn; [|exact H].
    apply Qeq_bool_iff in E. now rewrite <- H, E.
  - now rewrite H.
Qed.

(** What a successful [add_expense_db] did: one row inserted, then the check. *)
Lemma add_expense_db_ok today category amount date_str note d w d' :
  add_expense_db today category amount date_str note d = (Ok w, d') ->
  (exists stored, d' = insert_expense category amount stored note d)
  /\ get_budget_limit d' = get_budget_limit d
  /\ w = match get_budget_limit d' with
         | Some budget =>
             if Qltb budget (get_monthly_total today d')
             then Some (warning_message (get_monthly_total today d') budget)
             else None
         | None => None
         end.
Proof.
  unfold add_expense_db.
  destruct (date_str =? "")%string.
  - intros [= <- <-]. split; [eauto|]. split; reflexivity.
  - destruct (strptime date_str) as [dt|]; [|discriminate].
    intros [= <- <-]. split; [eauto|]. split; reflexivity.
Qed.

Lemma warning_message_carries t b :
  carries (warning_message t b) t /\ carries (warning_message t b) b.
Proof.
  split; [exists t | exists b]; (split; [cbn; tauto | reflexivity]).
Qed.

Lemma cli_show_summary_ok today period d lines :
  cli_show_summary today period d = Ok lines ->
  exists rows,
    get_summary_period today period d = Ok rows
    /\ lines =
       ([[Lit nl; Lit (capitalize period); Lit " summary (";
          Lit (strftime today); Lit "):"]]
        ++ (if match rows with [] => true | _ => false end
            then [[Lit "No expenses found for this period."]] else [])
        ++ map (fun row => [Lit "  "; Lit (fst row); Lit ": "; Num (snd row)]) rows
        ++ [[Lit "  TOTAL: "; Num (summary_total rows)]]
        ++ budget_lines (get_budget_limit d) (summary_total rows)
        ++ [[]])%list.
Proof.
  unfold cli_show_summary.
  destruct (get_summary_period today period d) as [rows|e]; cbn [bind];
    [|discriminate].
  intros [= <-]. eauto.
Qed.

(** Of the lines of a summary only those on the budget can be the warning. *)
Lemma summary_warning_line_origin today period d lines rows line :
  cli_show_summary today period d = Ok lines ->
  get_summary_period today period d = Ok rows ->
  In line lines -> is_warning_line line ->
  In line (budget_lines (get_budget_limit d) (summary_total rows)).
Proof.
  intros Hs Hr Hin [x ->].
  apply cli_show_summary_ok in Hs. destruct Hs as (rows' & Hr' & ->).
  rewrite Hr in Hr'. injection Hr' as <-.
  rewrite !in_app_iff in Hin.
  destruct Hin as [H | [H | [H | [H | [H | H]]]]].
  - cbn in H. destruct H as [H | []]. discriminate.
  - destruct rows; cbn in H; [destruct H as [H | []]; discriminate | destruct H].
  - apply in_map_iff in H. destruct H as (row & H & _). discriminate.
  - cbn in H. destruct H as [H | []]. discriminate.
  - exact H.
  - cbn in H. destruct H as [H | []]. discriminate.
Qed.

Lemma budget_lines_in_summary today period d lines rows line :
  cli_show_summary today period d = Ok lines ->
  get_summary_period today period d = Ok rows ->
  In line (budget_lines (get_budget_limit d) (summary_total rows)) ->
  In line lines.
Proof.
  intros Hs Hr Hin.
  apply cli_show_summary_ok in Hs. destruct Hs as (rows' & Hr' & ->).
  rewrite Hr in Hr'. injection Hr' as <-.
  rewrite !in_app_iff. tauto.
Qed.

Lemma budget_lines_nonzero b t :
  ~ (b == 0)%Q ->
  budget_lines (Some b) t
  = [Lit "  Budget Limit: "; Num b]
    :: (if Qltb b t then [exceeded_line t b] else []).
Proof.
  intros Hb. unfold budget_lines, truthy_float.
  destruct (Qeq_bool b 0) eqn:E; [|reflexivity].
  apply Qeq_bool_iff in E. contradiction.
Qed.

(** C1 (as the code has it): after a successful [Add] a warning is returned
    exactly when a budget is configured and the month-to-date total [t] is
    strictly above it; that warning shows [t] and the budget.  After a period
    summary with a configured budget [b] other than zero, the warning line is
    printed exactly when the period total [t] is strictly above [b]; it shows
    [t - b], and the total and the budget are printed on lines of their own.
    A total equal to the budget gives no warning, and neither does a store
    with no budget. *)
Theorem budget_warning_add_and_summary :
  (forall today category amount date_str note d w d',
     add_expense_db today category amount date_str note d = (Ok w, d') ->
     let t := get_monthly_total today d' in
     ((exists msg, w = Some msg)
      <-> exists b, get_budget_limit d' = Some b /\ (b < t)%Q)
     /\ (forall msg, w = Some msg ->
           exists b, get_budget_limit d' = Some b
                     /\ msg = warning_message t b
                     /\ carries msg t /\ carries msg b)
     /\ (forall b, get_budget_limit d' = Some b -> (t == b)%Q -> w = None))
  /\
  (forall today period d lines rows,
     cli_show_summary today period d = Ok lines ->
     get_summary_period today period d = Ok rows ->
     let t := summary_total rows in
     (get_budget_limit d = None ->
      forall line, In line lines -> ~ is_warning_line line)
     /\ (forall b, get_budget_limit d = Some b -> ~ (b == 0)%Q ->
           ((exists line, In line lines /\ is_warning_line line) <-> (b < t)%Q)
           /\ (forall line, In line lines -> is_warning_line line ->
                 line = exceeded_line t b /\ carries line (t - b))
           /\ ((t == b)%Q -> forall line, In line lines -> ~ is_warning_line line)
           /\ In [Lit "  TOTAL: "; Num t] lines
           /\ In [Lit "  Budget Limit: "; Num b] lines)).
Proof.
  split.
  - intros today category amount date_str note d w d' Hadd t.
    apply add_expense_db_ok in Hadd. destruct Hadd as (_ & _ & Hw).
    fold t in Hw. destruct (get_budget_limit d') as [b|].
    + destruct (Qltb b t) eqn:E.
      * apply Qltb_lt in E. subst w. split; [|split].
        -- split; eauto.
        -- intros msg [= <-]. exists b.
           pose proof (warning_message_carries t b). tauto.
        -- intros b' [= <-] Heq. rewrite Heq in E.
           exfalso. exact (Qlt_irrefl _ E).
      * subst w. split; [|split].
        -- split; [intros [msg H]; discriminate|].
           intros (b' & [= <-] & Hlt). apply Qltb_lt in Hlt. congruence.
        -- discriminate.
        -- reflexivity.
    + subst w. split; [|split].
      * split; [intros [msg H]; discriminate | intros (b & H & _); discriminate].
      * discriminate.
      * reflexivity.
  - intros today period d lines rows Hs Hr t. split.
    + intros Hnone line Hin Hw.
      pose proof (summary_warning_line_origin _ _ _ _ _ _ Hs Hr Hin Hw) as H.
      rewrite Hnone in H. exact H.
    + intros b Hb Hnz.
      assert (forall line, In line lines -> is_warning_line line ->
                (b < t)%Q /\ line = exceeded_line t b) as Horigin.
      { intros line Hin Hw.
        pose proof (summary_warning_line_origin _ _ _ _ _ _ Hs Hr Hin Hw) as H.
        rewrite Hb, (budget_lines_nonzero b _ Hnz) in H. fold t in H.
        destruct H as [<- | H].
        - destruct Hw as [x Hw]. discriminate.
        - destruct (Qltb b t) eqn:E; [|destruct H].
          apply Qltb_lt in E. destruct H as [<- | []]. now split. }
      assert (forall line,
                In line (budget_lines (get_budget_limit d) (summary_total rows)) ->
                In line lines) as Hshown
        by (intros line; apply (budget_lines_in_summary _ _ _ _ _ _ Hs Hr)).
      rewrite Hb, (budget_lines_nonzero b _ Hnz) in Hshown. fold t in Hshown.
      split; [|split; [|split; [|split]]].
      * split.
        -- intros (line & Hin & Hw). now apply (Horigin line).
        -- intros Hlt. exists (exceeded_line t b). split.
           ++ apply Hshown. right. apply Qltb_lt in Hlt. rewrite Hlt. now left.
           ++ now exists (t - b)%Q.
      * intros line Hin Hw. destruct (Horigin line Hin Hw) as [_ ->].
        split; [reflexivity|]. exists (t - b)%Q.
        split; [cbn; tauto | reflexivity].
      * intros Heq line Hin Hw. destruct (Horigin line Hin Hw) as [Hlt _].
        rewrite Heq in Hlt. exact (Qlt_irrefl _ Hlt).
      * apply cli_show_summary_ok in Hs. destruct Hs as (rows' & Hr' & ->).
        rewrite Hr in Hr'. injection Hr' as <-.
        rewrite !in_app_iff. right. right. right. left. now left.
      * apply Hshown. now left.
Qed.

(** C1, where the claim as worded fails.  With a budget of 0 configured and a
    monthly total of 5, the summary prints no warning (its check is the
    truth value of the budget); and the warning [Add] returns for a total of
    1200 against a budget of 1000 shows 1200 and 1000 but not the 200 by which
    the budget is exceeded. *)
Lemma budget_warning_counterexample :
  (let today := mkdate 2024 3 3 in
   let d :=
     snd (add_expense_db today "Food" 5 "" "" (set_budget_limit 0 init_db)) in
   get_budget_limit d = Some 0%Q
   /\ exists lines rows,
        cli_show_summary today "monthly" d = Ok lines
        /\ get_summary_period today "monthly" d = Ok rows
        /\ (0 < summary_total rows)%Q
        /\ forall line, In line lines -> ~ is_warning_line line)
  /\
  (let today := mkdate 2024 3 3 in
   let d :=
     snd (add_expense_db today "Rent" 1150 "" "" (set_budget_limit 1000 init_db)) in
   exists msg d',
     add_expense_db today "Food" 50 "" "" d = (Ok (Some msg), d')
     /\ (get_monthly_total today d' == 1200)%Q
     /\ get_budget_limit d' = Some 1000%Q
     /\ ~ carries msg (1200 - 1000)).
Proof.
  split.
  - cbv zeta. split; [reflexivity|].
    eexists. eexists. split; [vm_compute; reflexivity|].
    split; [vm_compute; reflexivity|].
    split; [reflexivity|].
    intros line Hin [x Hx]. subst line. cbn in Hin.
    repeat (destruct Hin as [Hin | Hin]; [discriminate Hin|]). exact Hin.
  - cbv zeta. eexists. eexists. split; [vm_compute; reflexivity|].
    split; [reflexivity|]. split; [reflexivity|].
    intros (y & Hin & Hy). cbn in Hin.
    repeat (destruct Hin as [Hin | Hin];
            [first [discriminate Hin
                   | injection Hin as <-; vm_compute in Hy; discriminate Hy]|]).
    exact Hin.
Qed.

(** The example of the specification: budget 500, 50 and 900 already spent in
    March 2024, then 10 more: the total is 960 and [Add] warns; the monthly
    summary prints the warning with 460. *)
Lemma budget_warning_add_and_summary_witness :
  (exists msg,
     fst (add_expense_db (mkdate 2024 3 3) "Food" 10 "2024-03-03" ""
            example_march_db)
     = Ok (Some msg) /\ msg = warning_message 960 500)
  /\ exists lines,
       cli_show_summary (mkdate 2024 3 3) "monthly" example_march_db_after = Ok lines
       /\ exists line, In line lines /\ is_warning_line line.
Proof.
  split.
  - eexists. split; [vm_compute; reflexivity | reflexivity].
  - exists (match cli_show_summary (mkdate 2024 3 3) "monthly"
                    example_march_db_after with
            | Ok lines => lines
            | Raise _ => []
            end).
    split; [vm_compute; reflexivity|].
    destruct (proj2 budget_warning_add_and_summary
                (mkdate 2024 3 3) "monthly" example_march_db_after _
                [("Rent", 900%Q); ("Food", (0 + 50 + 10)%Q)]
                ltac:(vm_compute; reflexivity) ltac:(vm_compute; reflexivity))
      as [_ Hb].
    apply (Hb 500%Q); [reflexivity | vm_compute; discriminate | reflexivity].
Defined.

Lemma month_to_date_insert_outside today category amount stored note d :
  date_between (strftime (replace_day1 today)) (strftime today)
               (mkexpense (sqlite_sequence d + 1) category amount stored note)
  = false ->
  month_to_date today (insert_expense category amount stored note d)
  = month_to_date today d.
Proof.
  intros H. unfold month_to_date, insert_expense. cbn [expenses].
  rewrite filter_app. cbn [filter]. rewrite H. now rewrite app_nil_r.
Qed.

(** C2: the check after a successful [Add] compares the budget with the
    month-to-date total of the store as it is after the insert: the sum of the
    amounts of the records dated from the first of the current month to today
    (whatever the date of the record just added, which counts only if it falls
    in that range itself); and the month-to-date total is zero when no record
    falls in the range. *)
Theorem add_checks_month_to_date_total :
  (forall today category amount date_str note d w d',
     add_expense_db today category amount date_str note d = (Ok w, d') ->
     (get_monthly_total today d' == month_to_date today d')%Q
     /\ ((exists msg, w = Some msg)
         <-> exists b, get_budget_limit d = Some b
                       /\ (b < month_to_date today d')%Q)
     /\ (forall r, In r (expenses d') -> ~ In r (expenses d) ->
           ~ in_date_range (strftime (replace_day1 today)) (strftime today) r ->
           month_to_date today d' = month_to_date today d))
  /\ (forall today d,
        (forall r, In r (expenses d) ->
           ~ in_date_range (strftime (replace_day1 today)) (strftime today) r) ->
        get_monthly_total today d = 0%Q).
Proof.
  split.
  - intros today category amount date_str note d w d' Hadd.
    pose proof (get_monthly_total_month_to_date today d') as Ht.
    split; [exact Ht|].
    pose proof (add_expense_db_ok _ _ _ _ _ _ _ _ Hadd) as ([stored ->] & Hb & Hw).
    split.
    + rewrite Hb in Hw. destruct (get_budget_limit d) as [b|].
      * destruct (Qltb b _) eqn:E; subst w.
        -- apply Qltb_lt in E. rewrite Ht in E. split; eauto.
        -- split; [intros [msg H]; discriminate|].
           intros (b' & [= <-] & Hlt). rewrite <- Ht in Hlt.
           apply Qltb_lt in Hlt. congruence.
      * subst w.
        split; [intros [msg H]; discriminate | intros (b & H & _); discriminate].
    + intros r Hin Hnot Hout.
      apply month_to_date_insert_outside.
      cbn [insert_expense expenses] in Hin. apply in_app_iff in Hin.
      destruct Hin as [Hin | [<- | []]]; [contradiction|].
      destruct (date_between _ _ _) eqn:E; [|reflexivity].
      apply date_between_spec in E. contradiction.
  - intros today d Hnone. unfold get_monthly_total. cbv zeta.
    replace (filter _ (expenses d)) with (@nil expense); [reflexivity|].
    symmetry. induction (expenses d) as [|r l IH]; [reflexivity|].
    cbn [filter]. destruct (date_between _ _ r) eqn:E.
    + apply date_between_spec in E. exfalso. apply (Hnone r); [now left | exact E].
    + apply IH. intros x Hx. apply Hnone. now right.
Qed.

(** A backdated entry: on 2024-03-03, with 900 spent in March against a budget
    of 500, adding 10 dated 2024-01-15 still warns, on the March total 900. *)
Lemma add_checks_month_to_date_total_witness :
  let today := mkdate 2024 3 3 in
  let d := snd (add_expense_db today "Rent" 900 "2024-03-02" ""
                  (set_budget_limit 500 init_db)) in
  let out := add_expense_db today "Food" 10 "2024-01-15" "" d in
  fst out = Ok (Some (warning_message 900 500))
  /\ (get_monthly_total today (snd out) == month_to_date today (snd out))%Q
  /\ ((exists msg, Some (warning_message 900 500) = Some msg)
      <-> exists b, get_budget_limit d = Some b
                    /\ (b < month_to_date today (snd out))%Q).
Proof.
  cbv zeta. split; [vm_compute; reflexivity|].
  refine ((fun H => conj (proj1 H) (proj1 (proj2 H)))
            (proj1 add_checks_month_to_date_total
               (mkdate 2024 3 3) "Food" 10%Q "2024-01-15" "" _ _ _ _)).
  vm_compute. reflexivity.
Defined.

(** C3 (as the code has it): a date text that is given and does not parse as
    [YYYY-MM-DD] makes [Add] fail with the error whose message is
    [Date must be in YYYY-MM-DD format] (capital D), and the store, hence what
    [List] returns, is what it was. *)
Theorem add_rejects_unparsable_date today category amount date_str note d :
  date_str <> "" ->
  strptime date_str = None ->
  add_expense_db today category amount date_str note d
  = (Raise (ValueError "Date must be in YYYY-MM-DD format"), d)
  /\ get_entries_range None None
       (snd (add_expense_db today category amount date_str note d))
     = get_entries_range None None d.
Proof.
  intros Hne Hparse. unfold add_expense_db.
  apply String.eqb_neq in Hne. rewrite Hne, Hparse. split; reflexivity.
Qed.

Lemma add_rejects_unparsable_date_witness :
  "03/01/2024" <> "" /\ strptime "03/01/2024" = None
  /\ add_expense_db (mkdate 2024 3 3) "Food" 50 "03/01/2024" "" init_db
     = (Raise (ValueError "Date must be in YYYY-MM-DD format"), init_db).
Proof.
  split; [discriminate|]. split; [reflexivity|].
  apply (add_rejects_unparsable_date (mkdate 2024 3 3) "Food" 50%Q
           "03/01/2024" "" init_db); [discriminate | reflexivity].
Defined.

(** C3, where the claim as worded fails: the message of the error raised for
    [03/01/2024] is not the text the claim quotes. *)
Lemma add_unparsable_date_message_counterexample :
  fst (add_expense_db (mkdate 2024 3 3) "Food" 50 "03/01/2024" "" init_db)
  = Raise (ValueError "Date must be in YYYY-MM-DD format")
  /\ fst (add_expense_db (mkdate 2024 3 3) "Food" 50 "03/01/2024" "" init_db)
     <> Raise (ValueError "date must be in YYYY-MM-DD format").
Proof. split; [reflexivity | discriminate]. Qed.

(** C4: [add_expense_db] does not look at the category.  Called with the empty
    text it succeeds and persists a record whose category is empty. *)
Theorem add_expense_db_accepts_empty_category :
  add_expense_db (mkdate 2024 3 3) "" 5 "" "" init_db
  = (Ok None, mkdb [mkexpense 1 "" 5 "2024-03-03" ""] 1 []).
Proof. reflexivity. Qed.

Lemma add_expense_db_any_category today category amount note d :
  exists w,
    add_expense_db today category amount "" note d
    = (Ok w, insert_expense category amount (strftime today) note d).
Proof. unfold add_expense_db. cbn. eauto. Qed.

(** The graphical front end refuses an empty category before calling
    [add_expense_db]; the command-line front end passes it on. *)
Lemma add_expense_gui_refuses_empty_category (FT : FloatText) today amt date note d :
  add_expense_gui today "" amt date note d
  = (showerror "Error" [Lit "Please enter category and amount"], d).
Proof. reflexivity. Qed.

Lemma cli_add_accepts_empty_category (FT : FloatText) today amt a note d :
  float_of_text amt = Some a ->
  exists out,
    cli_add today "" amt note "" d
    = (out, insert_expense "" a (strftime today) note d).
Proof.
  intros Ha. unfold cli_add, float_of_input. rewrite Ha.
  destruct (add_expense_db_any_category today "" a note d) as [w ->]. eauto.
Qed.

(* ------------------------------------------------------------------ *)
(** ** Periods *)

Lemma days_before_year_mono y y' :
  y <= y' -> days_before_year y <= days_before_year y'.
Proof.
  intros H. unfold days_before_year. cbv zeta.
  Z.div_mod_to_equations. lia.
Qed.

Lemma days_before_year_succ y :
  days_before_year (y + 1) = days_before_year y + 365 + b2z (is_leap y).
Proof.
  unfold days_before_year, is_leap, b2z. cbv zeta.
  replace (y + 1 - 1) with y by lia.
  destruct (Z.eqb_spec (y mod 4) 0) as [H4 | H4];
    destruct (Z.eqb_spec (y mod 100) 0) as [H100 | H100];
    destruct (Z.eqb_spec (y mod 400) 0) as [H400 | H400];
    cbn [andb orb negb]; Z.div_mod_to_equations; lia.
Qed.

Lemma valid_ymd_spec y m d :
  valid_ymd y m d = true <->
  1 <= y <= 9999 /\ 1 <= m <= 12 /\ 1 <= d <= days_in_month y m.
Proof.
  unfold valid_ymd, MINYEAR, MAXYEAR. rewrite !andb_true_iff, !Z.leb_le. tauto.
Qed.

Lemma day_of_year_bounds y m d :
  1 <= m <= 12 -> 1 <= d <= days_in_month y m ->
  1 <= days_before_month y m + d <= 365 + b2z (is_leap y).
Proof.
  intros Hm Hd. unfold days_before_month, days_in_month in *.
  assert (m = 1 \/ m = 2 \/ m = 3 \/ m = 4 \/ m = 5 \/ m = 6 \/ m = 7 \/ m = 8
          \/ m = 9 \/ m = 10 \/ m = 11 \/ m = 12) as Hcase by lia.
  destruct (is_leap y);
    repeat (destruct Hcase as [-> | Hcase]); try subst m;
    eval_tables;
    cbn [Z.eqb Z.ltb Z.compare Pos.compare Pos.compare_cont Pos.eqb andb b2z]
      in Hd |- *; lia.
Qed.

Lemma toordinal_bounds d :
  valid d = true -> 1 <= toordinal d <= MAXORDINAL.
Proof.
  unfold valid, toordinal, ymd2ord. intros H. apply valid_ymd_spec in H.
  destruct H as (Hy & Hm & Hd).
  pose proof (day_of_year_bounds _ _ _ Hm Hd) as Hdoy.
  pose proof (days_before_year_succ (year d)) as Hs.
  pose proof (days_before_year_mono 1 (year d) ltac:(lia)) as H1.
  pose proof (days_before_year_mono (year d + 1) 10000 ltac:(lia)) as H2.
  change (days_before_year 1) with 0 in H1.
  change (days_before_year 10000) with 3652059 in H2.
  unfold MAXORDINAL. lia.
Qed.

Lemma fromordinal_valid n :
  1 <= n <= MAXORDINAL -> valid (fromordinal n) = true.
Proof.
  intros Hn. pose proof (ord2ymd_spec n ltac:(lia)) as H.
  unfold valid, fromordinal. destruct (ord2ymd n) as [[y m] d]. cbn.
  destruct H as (Hord & Hy & Hm & Hd).
  apply valid_ymd_spec. repeat split; try lia.
  destruct (Z_le_gt_dec y 9999) as [Hle | Hgt]; [exact Hle|].
  pose proof (day_of_year_bounds _ _ _ Hm Hd) as Hdoy.
  pose proof (days_before_year_mono 10000 y ltac:(lia)) as H2.
  change (days_before_year 10000) with 3652059 in H2.
  unfold ymd2ord, MAXORDINAL in *. lia.
Qed.

Lemma replace_day1_valid d : valid d = true -> valid (replace_day1 d) = true.
Proof.
  unfold valid, replace_day1. cbn. rewrite !valid_ymd_spec.
  intros (Hy & Hm & Hd). repeat split; try lia.
Qed.

Lemma sub_days_in_range d k :
  0 < toordinal d - k <= MAXORDINAL ->
  sub_days d k = Ok (fromordinal (toordinal d - k)).
Proof.
  intros H. unfold sub_days. cbv zeta.
  destruct (Z.ltb_spec 0 (toordinal d - k)); [|lia].
  destruct (Z.leb_spec (toordinal d - k) MAXORDINAL); [reflexivity | lia].
Qed.

Lemma period_range_weekly today :
  period_range today "weekly"
  = bind (sub_days today 6) (fun start => Ok (start, today)).
Proof. reflexivity. Qed.

Lemma period_range_monthly today :
  period_range today "monthly" = Ok (replace_day1 today, today).
Proof. reflexivity. Qed.

Lemma period_range_other today period :
  period <> "weekly" -> period <> "monthly" ->
  period_range today period = Raise (ValueError "Unknown period").
Proof.
  intros Hw Hm. apply String.eqb_neq in Hw, Hm.
  unfold period_range. now rewrite Hw, Hm.
Qed.

(** C5: the weekly period is the seven days that end today, the monthly period
    runs from the first of the current month to today, and any other period
    token raises [ValueError("Unknown period")]; [get_summary_period]
    summarises exactly that range.  ([today] is a date of the calendar, from
    the seventh day of year 1 on, so that six days before it exist.) *)
Theorem period_range_weekly_monthly_other (today : date) :
  valid today = true ->
  6 < toordinal today ->
  (exists start,
     period_range today "weekly" = Ok (start, today)
     /\ valid start = true
     /\ toordinal start = toordinal today - 6
     /\ toordinal today - toordinal start + 1 = 7
     /\ forall d, get_summary_period today "weekly" d
                  = Ok (get_summary_range (strftime start) (strftime today) d))
  /\ period_range today "monthly"
     = Ok (mkdate (year today) (month today) 1, today)
  /\ valid (mkdate (year today) (month today) 1) = true
  /\ (forall d, get_summary_period today "monthly" d
                = Ok (get_summary_range
                        (strftime (mkdate (year today) (month today) 1))
                        (strftime today) d))
  /\ (forall period, period <> "weekly" -> period <> "monthly" ->
        period_range today period = Raise (ValueError "Unknown period")
        /\ forall d, get_summary_period today period d
                     = Raise (ValueError "Unknown period")).
Proof.
  intros Hv H6. pose proof (toordinal_bounds today Hv) as Hb.
  pose proof (sub_days_in_range today 6 ltac:(lia)) as Hsub.
  split; [|split; [|split; [|split]]].
  - exists (fromordinal (toordinal today - 6)).
    assert (toordinal (fromordinal (toordinal today - 6)) = toordinal today - 6)
      as Hrt by (apply toordinal_fromordinal; lia).
    split; [|split; [|split; [|split]]].
    + now rewrite period_range_weekly, Hsub.
    + apply fromordinal_valid. lia.
    + exact Hrt.
    + lia.
    + intros d. unfold get_summary_period.
      now rewrite period_range_weekly, Hsub.
  - apply period_range_monthly.
  - exact (replace_day1_valid today Hv).
  - intros d. unfold get_summary_period. now rewrite period_range_monthly.
  - intros period Hw Hm.
    pose proof (period_range_other today period Hw Hm) as Ho.
    split; [exact Ho|]. intros d. unfold get_summary_period. now rewrite Ho.
Qed.

Lemma period_range_weekly_monthly_other_witness :
  valid (mkdate 2024 3 3) = true
  /\ 6 < toordinal (mkdate 2024 3 3)
  /\ period_range (mkdate 2024 3 3) "weekly"
     = Ok (mkdate 2024 2 26, mkdate 2024 3 3)
  /\ period_range (mkdate 2024 3 3) "monthly"
     = Ok (mkdate 2024 3 1, mkdate 2024 3 3)
  /\ period_range (mkdate 2024 3 3) "yearly" = Raise (ValueError "Unknown period").
Proof.
  split; [reflexivity|]. split; [reflexivity|].
  pose proof (period_range_weekly_monthly_other (mkdate 2024 3 3)
                eq_refl eq_refl) as (_ & Hm & _ & _ & Ho).
  split; [reflexivity|]. split; [exact Hm|].
  apply (Ho "yearly"); discriminate.
Defined.

(* ------------------------------------------------------------------ *)
(** ** Canonical date texts compare as the dates they write *)

(** Lexicographic comparison: the second decides when the first is [Eq]. *)
Lemma digit_compare x y r1 r2 :
  0 <= x <= 9 -> 0 <= y <= 9 ->
  String.compare (String (digit x) r1) (String (digit y) r2)
  = match x ?= y with
    | Eq => String.compare r1 r2
    | c => c
    end.
Proof.
  intros Hx Hy.
  assert (Ascii.compare (digit x) (digit y) = (x ?= y)) as E.
  { assert (x = 0 \/ x = 1 \/ x = 2 \/ x = 3 \/ x = 4 \/ x = 5 \/ x = 6 \/ x = 7
            \/ x = 8 \/ x = 9) as Cx by lia.
    assert (y = 0 \/ y = 1 \/ y = 2 \/ y = 3 \/ y = 4 \/ y = 5 \/ y = 6 \/ y = 7
            \/ y = 8 \/ y = 9) as Cy by lia.
    repeat (destruct Cx as [-> | Cx]); try subst x;
      repeat (destruct Cy as [-> | Cy]); try subst y; reflexivity. }
  cbn [String.compare]. rewrite E. now destruct (x ?= y).
Qed.

Lemma pad2_compare x y r1 r2 :
  0 <= x < 100 -> 0 <= y < 100 ->
  String.compare (pad2 x ++ r1) (pad2 y ++ r2)
  = match x ?= y with
    | Eq => String.compare r1 r2
    | c => c
    end.
Proof.
  intros Hx Hy. unfold pad2. cbn [append].
  pose proof (Z.div_mod x 10 ltac:(lia)) as Ex.
  pose proof (Z.div_mod y 10 ltac:(lia)) as Ey.
  pose proof (Z.mod_pos_bound x 10 ltac:(lia)) as Bx.
  pose proof (Z.mod_pos_bound y 10 ltac:(lia)) as By.
  rewrite digit_compare by lia.
  rewrite digit_compare by lia.
  destruct (Z.compare_spec (x / 10) (y / 10)) as [H1 | H1 | H1];
    destruct (Z.compare_spec (x mod 10) (y mod 10)) as [H2 | H2 | H2];
    destruct (Z.compare_spec x y) as [H3 | H3 | H3];
    try reflexivity; exfalso; lia.
Qed.

Lemma pad4_split n :
  0 <= n -> pad4 n = (pad2 (n / 100) ++ pad2 (n mod 100))%string.
Proof.
  intros Hn. unfold pad4, pad2. cbn [append].
  replace (n / 100 / 10) with (n / 1000) by (rewrite Z.div_div by lia; reflexivity).
  reflexivity.
Qed.

Lemma pad4_compare x y r1 r2 :
  0 <= x < 10000 -> 0 <= y < 10000 ->
  String.compare (pad4 x ++ r1) (pad4 y ++ r2)
  = match x ?= y with
    | Eq => String.compare r1 r2
    | c => c
    end.
Proof.
  intros Hx Hy. rewrite !pad4_split by lia. rewrite !string_app_assoc.
  pose proof (Z.div_mod x 100 ltac:(lia)) as Ex.
  pose proof (Z.div_mod y 100 ltac:(lia)) as Ey.
  pose proof (Z.mod_pos_bound x 100 ltac:(lia)) as Bx.
  pose proof (Z.mod_pos_bound y 100 ltac:(lia)) as By.
  rewrite pad2_compare by lia. rewrite pad2_compare by lia.
  destruct (Z.compare_spec (x / 100) (y / 100)) as [H1 | H1 | H1];
    destruct (Z.compare_spec (x mod 100) (y mod 100)) as [H2 | H2 | H2];
    destruct (Z.compare_spec x y) as [H3 | H3 | H3];
    try reflexivity; exfalso; lia.
Qed.

Lemma days_in_month_bounds y m : 1 <= m <= 12 -> 28 <= days_in_month y m <= 31.
Proof.
  intros Hm. unfold days_in_month.
  assert (m = 1 \/ m = 2 \/ m = 3 \/ m = 4 \/ m = 5 \/ m = 6 \/ m = 7 \/ m = 8
          \/ m = 9 \/ m = 10 \/ m = 11 \/ m = 12) as Hcase by lia.
  destruct (is_leap y);
    repeat (destruct Hcase as [-> | Hcase]); try subst m;
    eval_tables;
    cbn [Z.eqb Z.ltb Z.compare Pos.compare Pos.compare_cont Pos.eqb andb b2z];
    lia.
Qed.

(** The text of a valid date compares with another as the triples
    (year, month, day) do. *)
Lemma strftime_compare a b :
  valid a = true -> valid b = true ->
  String.compare (strftime a) (strftime b)
  = match year a ?= year b with
    | Eq => match month a ?= month b with
            | Eq => day a ?= day b
            | c => c
            end
    | c => c
    end.
Proof.
  unfold valid. rewrite !valid_ymd_spec. intros (Hya & Hma & Hda) (Hyb & Hmb & Hdb).
  pose proof (days_in_month_bounds (year a) (month a) Hma).
  pose proof (days_in_month_bounds (year b) (month b) Hmb).
  unfold strftime.
  rewrite pad4_compare by lia. cbn [append String.compare].
  rewrite ascii_compare_refl.
  rewrite pad2_compare by lia. cbn [append String.compare].
  rewrite ascii_compare_refl.
  rewrite <- (string_app_nil_r (pad2 (day a))), <- (string_app_nil_r (pad2 (day b))).
  rewrite pad2_compare by lia. cbn [String.compare].
  destruct (year a ?= year b); [|reflexivity|reflexivity].
  destruct (month a ?= month b); [|reflexivity|reflexivity].
  now destruct (day a ?= day b).
Qed.

Lemma days_before_next_month y m m' :
  1 <= m -> m < m' -> m' <= 12 ->
  days_before_month y m + days_in_month y m <= days_before_month y m'.
Proof.
  intros H1 H2 H3. unfold days_before_month, days_in_month.
  assert (m = 1 \/ m = 2 \/ m = 3 \/ m = 4 \/ m = 5 \/ m = 6 \/ m = 7 \/ m = 8
          \/ m = 9 \/ m = 10 \/ m = 11) as Cm by lia.
  assert (m' = 2 \/ m' = 3 \/ m' = 4 \/ m' = 5 \/ m' = 6 \/ m' = 7 \/ m' = 8
          \/ m' = 9 \/ m' = 10 \/ m' = 11 \/ m' = 12) as Cm' by lia.
  destruct (is_leap y);
    repeat (destruct Cm as [-> | Cm]); try subst m;
    repeat (destruct Cm' as [-> | Cm']); try subst m';
    try lia;
    eval_tables;
    cbn [Z.eqb Z.ltb Z.compare Pos.compare Pos.compare_cont Pos.eqb andb b2z];
    lia.
Qed.

(** [toordinal] is strictly increasing in (year, month, day). *)
Lemma toordinal_compare a b :
  valid a = true -> valid b = true ->
  (toordinal a ?= toordinal b)
  = match year a ?= year b with
    | Eq => match month a ?= month b with
            | Eq => day a ?= day b
            | c => c
            end
    | c => c
    end.
Proof.
  unfold valid, toordinal, ymd2ord. rewrite !valid_ymd_spec.
  intros (Hya & Hma & Hda) (Hyb & Hmb & Hdb).
  pose proof (day_of_year_bounds _ _ _ Hma Hda) as Ba.
  pose proof (day_of_year_bounds _ _ _ Hmb Hdb) as Bb.
  pose proof (days_before_year_succ (year a)) as Sa.
  pose proof (days_before_year_succ (year b)) as Sb.
  destruct (Z.compare_spec (year a) (year b)) as [Ey | Ly | Gy].
  - rewrite Ey in *.
    destruct (Z.compare_spec (month a) (month b)) as [Em | Lm | Gm].
    + rewrite Em. destruct (Z.compare_spec (day a) (day b));
        [apply Z.compare_eq_iff | apply Z.compare_lt_iff | apply Z.compare_gt_iff];
        lia.
    + pose proof (days_before_next_month (year b) (month a) (month b)
                    ltac:(lia) Lm ltac:(lia)).
      apply Z.compare_lt_iff. lia.
    + pose proof (days_before_next_month (year b) (month b) (month a)
                    ltac:(lia) Gm ltac:(lia)).
      apply Z.compare_gt_iff. lia.
  - pose proof (days_before_year_mono (year a + 1) (year b) ltac:(lia)).
    apply Z.compare_lt_iff. lia.
  - pose proof (days_before_year_mono (year b + 1) (year a) ltac:(lia)).
    apply Z.compare_gt_iff. lia.
Qed.

Lemma strftime_leb a b :
  valid a = true -> valid b = true ->
  (String.leb (strftime a) (strftime b) = true <-> toordinal a <= toordinal b).
Proof.
  intros Ha Hb. unfold String.leb.
  rewrite (strftime_compare a b Ha Hb), <- (toordinal_compare a b Ha Hb).
  destruct (Z.compare_spec (toordinal a) (toordinal b)); split;
    try lia; try reflexivity; discriminate.
Qed.

(** A record whose date text writes the valid date [dr] is in the text range
    of two valid dates exactly when [dr] is between them in the calendar. *)
Lemma in_date_range_calendar s e dr r :
  valid s = true -> valid e = true -> valid dr = true ->
  e_date r = strftime dr ->
  (in_date_range (strftime s) (strftime e) r
   <-> toordinal s <= toordinal dr <= toordinal e).
Proof.
  intros Hs He Hd Hr. unfold in_date_range. rewrite Hr.
  rewrite (strftime_leb s dr Hs Hd), (strftime_leb dr e Hd He). reflexivity.
Qed.

Lemma strptime_valid s dt : strptime s = Some dt -> valid dt = true.
Proof.
  unfold strptime. destruct (re_date s) as [|[[[y m] d] rest] l]; [discriminate|].
  destruct (rest =? "")%string; cbn [andb]; [|discriminate].
  destruct (valid_ymd y m d) eqn:E; [|discriminate].
  intros [= <-]. exact E.
Qed.

(** What [add_expense_db] stores as the date is the canonical text of a valid
    date: today's, or the one the given text parses to. *)
Lemma add_expense_db_stores_canonical_date today category amount date_str note d w d' :
  valid today = true ->
  add_expense_db today category amount date_str note d = (Ok w, d') ->
  exists dt,
    valid dt = true
    /\ d' = insert_expense category amount (strftime dt) note d
    /\ (date_str = "" -> dt = today)
    /\ (date_str <> "" -> strptime date_str = Some dt).
Proof.
  intros Hv. unfold add_expense_db.
  destruct (String.eqb_spec date_str "") as [-> | Hne].
  - intros [= <- <-]. exists today. repeat split; tauto.
  - destruct (strptime date_str) as [dt|] eqn:E; [|discriminate].
    intros [= <- <-]. exists dt. split; [exact (strptime_valid _ _ E)|].
    repeat split; tauto.
Qed.

(* ------------------------------------------------------------------ *)
(** ** Summaries *)

Lemma group_get_None c g : group_get c g = None <-> ~ In c (map fst g).
Proof.
  induction g as [|[c' t] g IH]; cbn; [tauto|].
  destruct (String.eqb_spec c' c) as [-> | Hne].
  - split; [discriminate | tauto].
  - rewrite IH. tauto.
Qed.

Lemma group_get_In c t g :
  NoDup (map fst g) -> (In (c, t) g <-> group_get c g = Some t).
Proof.
  induction g as [|[c' t'] g IH]; cbn; intros Hnd.
  - split; [tauto | discriminate].
  - inversion Hnd as [|? ? Hnotin Hnd']; subst.
    destruct (String.eqb_spec c' c) as [-> | Hne].
    + split.
      * intros [[= ->] | Hin]; [reflexivity|].
        exfalso. apply Hnotin. apply in_map_iff. now exists (c, t).
      * intros [= ->]. now left.
    + rewrite <- (IH Hnd'). split; [|tauto].
      intros [[= -> _] | Hin]; [contradiction | exact Hin].
Qed.

Lemma group_add_keys c a g :
  forall k, In k (map fst (group_add c a g)) <-> k = c \/ In k (map fst g).
Proof.
  induction g as [|[c' t] g IH]; cbn; intros k.
  - split; [intros [<- | []]; now left | intros [-> | []]; now left].
  - destruct (String.eqb_spec c' c) as [-> | Hne]; cbn.
    + intuition congruence.
    + rewrite IH. tauto.
Qed.

Lemma group_add_NoDup c a g :
  NoDup (map fst g) -> NoDup (map fst (group_add c a g)).
Proof.
  induction g as [|[c' t] g IH]; cbn; intros Hnd.
  - repeat constructor. tauto.
  - inversion Hnd as [|? ? Hnotin Hnd']; subst.
    destruct (String.eqb_spec c' c) as [-> | Hne]; cbn.
    + now constructor.
    + constructor; [|now apply IH].
      rewrite group_add_keys. intros [-> | H]; contradiction.
Qed.

Lemma group_get_add c a g k :
  group_get k (group_add c a g)
  = if (c =? k)%string
    then Some (match group_get c g with Some t => t + a | None => 0 + a end)%Q
    else group_get k g.
Proof.
  induction g as [|[c' t] g IH]; cbn.
  - destruct (String.eqb_spec c k); reflexivity.
  - destruct (String.eqb_spec c' c) as [-> | Hne]; cbn.
    + destruct (c =? k)%string; reflexivity.
    + destruct (String.eqb_spec c' k) as [-> | Hk].
      * destruct (String.eqb_spec c k); [congruence | reflexivity].
      * exact IH.
Qed.

(** The accumulators after a scan, from those before it. *)
Lemma group_scan rows : forall g,
  NoDup (map fst g) ->
  let g' := fold_left (fun g r => group_add (e_category r) (e_amount r) g) rows g in
  NoDup (map fst g')
  /\ forall c,
       match group_get c g' with
       | Some t =>
           (t == match group_get c g with Some t0 => t0 | None => 0 end
                 + category_total c rows)%Q
           /\ (group_get c g = None -> In c (map e_category rows))
       | None => group_get c g = None /\ ~ In c (map e_category rows)
       end.
Proof.
  induction rows as [|r rows IH]; intros g Hnd; cbn [fold_left].
  - split; [exact Hnd|]. intros c. unfold category_total. cbn.
    destruct (group_get c g) as [t|]; [|tauto].
    split; [now rewrite Qplus_0_r | discriminate].
  - specialize (IH (group_add (e_category r) (e_amount r) g)
                   (group_add_NoDup _ _ _ Hnd)).
    cbv zeta in IH. destruct IH as [Hnd' IH]. split; [exact Hnd'|].
    intros c. specialize (IH c). rewrite group_get_add in IH.
    unfold category_total in *. cbn [filter map].
    destruct (String.eqb_spec (e_category r) c) as [Hc | Hc].
    + destruct (group_get c _) as [t|].
      * destruct IH as [Ht _]. split.
        -- rewrite Ht. rewrite Hc. cbn [map Qsum fold_right].
           unfold Qsum. destruct (group_get c g) as [t0|]; ring.
        -- intros _. cbn. now left.
      * destruct IH as [IH _]. discriminate.
    + destruct (group_get c _) as [t|].
      * destruct IH as [Ht Hin]. split; [exact Ht|].
        intros Hg. cbn. right. now apply Hin.
      * destruct IH as [Hg Hin]. split; [exact Hg|].
        cbn. intros [H | H]; [contradiction | now apply Hin].
Qed.

Lemma group_sum_spec rows :
  NoDup (map fst (group_sum rows))
  /\ (forall c, In c (map fst (group_sum rows)) <-> In c (map e_category rows))
  /\ (forall c t, In (c, t) (group_sum rows) -> (t == category_total c rows)%Q).
Proof.
  pose proof (group_scan rows [] (NoDup_nil _)) as [Hnd H].
  cbv zeta in *. fold (group_sum rows) in *.
  split; [exact Hnd|]. split.
  - intros c. specialize (H c).
    destruct (group_get c (group_sum rows)) as [t|] eqn:E.
    + destruct H as [_ Hin]. split; [intros _; now apply Hin|].
      intros _. apply (group_get_In _ _ _ Hnd) in E.
      apply in_map_iff. now exists (c, t).
    + destruct H as [_ Hnot]. apply group_get_None in E. tauto.
  - intros c t Hin. apply (group_get_In _ _ _ Hnd) in Hin.
    specialize (H c). rewrite Hin in H. destruct H as [H _].
    cbn in H. now rewrite Qplus_0_l in H.
Qed.

Lemma total_before_total p q : total_before p q = true \/ total_before q p = true.
Proof.
  unfold total_before. rewrite !Qle_bool_iff.
  destruct (Qlt_le_dec (snd p) (snd q)); [right; now apply Qlt_le_weak | now left].
Qed.

Lemma total_before_trans p q r :
  total_before p q = true -> total_before q r = true -> total_before p r = true.
Proof.
  unfold total_before. rewrite !Qle_bool_iff. intros H1 H2.
  eapply Qle_trans; eassumption.
Qed.

Lemma filter_filter {A} (f g : A -> bool) l :
  filter f (filter g l) = filter (fun x => g x && f x) l.
Proof.
  induction l as [|x l IH]; cbn; [reflexivity|].
  destruct (g x); cbn; [destruct (f x)|]; now rewrite IH.
Qed.

Lemma perm_In_iff {A} (l l' : list A) x :
  Permutation l l' -> (In x l <-> In x l').
Proof.
  intros H. split; apply Permutation_in; [exact H | now symmetry].
Qed.

(** C6: [Summarize] over a range returns one pair per distinct category among
    the records dated in the range; each total is the sum of the amounts of
    exactly the in-range records of that category; the pairs are in
    descending order of total. *)
Theorem get_summary_range_grouped_sorted (start_date end_date : string) (d : db) :
  let result := get_summary_range start_date end_date d in
  NoDup (map fst result)
  /\ (forall c, In c (map fst result)
                <-> exists r, In r (expenses d)
                              /\ in_date_range start_date end_date r
                              /\ e_category r = c)
  /\ (forall c t, In (c, t) result ->
        (t == Qsum (map e_amount
                      (filter (fun r => date_between start_date end_date r
                                        && (e_category r =? c)%string)
                              (expenses d))))%Q)
  /\ StronglySorted (fun p q => (snd q <= snd p)%Q) result.
Proof.
  cbv zeta. unfold get_summary_range.
  set (rows := filter (date_between start_date end_date) (expenses d)).
  pose proof (group_sum_spec rows) as (Hnd & Hkeys & Htot).
  pose proof (sort_by_perm total_before (group_sum rows)) as Hperm.
  split; [|split; [|split]].
  - eapply Permutation_NoDup; [|exact Hnd].
    apply Permutation_map. now symmetry.
  - intros c.
    rewrite (perm_In_iff _ _ c (Permutation_map fst Hperm)).
    rewrite Hkeys, in_map_iff. unfold rows.
    split.
    + intros (r & Hc & Hin). apply filter_In in Hin. destruct Hin as [Hin Hb].
      apply date_between_spec in Hb. eauto.
    + intros (r & Hin & Hb & Hc). exists r. split; [exact Hc|].
      apply filter_In. split; [exact Hin|]. now apply date_between_spec.
  - intros c t Hin. apply (Permutation_in _ Hperm) in Hin.
    rewrite (Htot c t Hin). unfold category_total, rows.
    rewrite filter_filter. reflexivity.
  - eapply StronglySorted_weaken;
      [|apply (sort_by_sorted total_before total_before_total
                 total_before_trans)].
    intros p q Hpq. now apply Qle_bool_iff.
Qed.

(* ------------------------------------------------------------------ *)
(** ** CSV: the reader undoes the writer *)

Import Csv.

Lemma parse_chars_app p a b :
  parse_chars p (a ++ b)
  = match parse_chars p a with
    | Some q => parse_chars q b
    | None => None
    end.
Proof.
  revert p. induction a as [|c a IH]; intros p; cbn; [reflexivity|].
  destruct (parse_process_char p (Ch c)); [apply IH | reflexivity].
Qed.

Lemma parse_chars_snoc p cur q c :
  parse_chars p cur = Some q ->
  parse_chars p (cur ++ String c "") = parse_process_char q (Ch c).
Proof.
  intros H. rewrite parse_chars_app, H. cbn.
  now destruct (parse_process_char q (Ch c)).
Qed.

(** A character in the middle of a line. *)
Lemma reading_char p cur c s :
  ends_line c s = false ->
  reading p cur (String c s) = reading p (cur ++ String c "") s.
Proof.
  unfold reading, ends_line. cbn [lines_from]. now intros ->.
Qed.

(** The last character of a line, in the middle of a record. *)
Lemma reading_line_end p cur q c s q1 q2 :
  parse_chars p cur = Some q ->
  ends_line c s = true ->
  parse_process_char q (Ch c) = Some q1 ->
  parse_process_char q1 EOL = Some q2 ->
  reading p cur (String c s)
  = if is_start_record (state q2)
    then option_map (cons (fields q2)) (reading parse_reset "" s)
    else reading q2 "" s.
Proof.
  intros Hq Hend H1 H2. unfold reading, ends_line in *.
  cbn [lines_from]. rewrite Hend. cbn [reader_loop].
  unfold parse_line. rewrite (parse_chars_snoc _ _ _ _ Hq), H1, H2.
  reflexivity.
Qed.

Lemma quotechar_not_newline : is_newline quotechar = false.
Proof. reflexivity. Qed.

Lemma ends_line_quotechar s : ends_line quotechar s = false.
Proof. reflexivity. Qed.

Lemma ends_line_delimiter s : ends_line delimiter s = false.
Proof. reflexivity. Qed.

Lemma ends_line_false_not_LF c s : ends_line c s = false -> Ascii.eqb c LF = false.
Proof. unfold ends_line. now destruct (Ascii.eqb c LF). Qed.

(** An ordinary character inside quotes is kept. *)
Lemma in_quoted_plain q c :
  state q = IN_QUOTED_FIELD -> Ascii.eqb c quotechar = false ->
  parse_process_char q (Ch c) = Some (parse_add_char q c).
Proof. intros Hs Hc. unfold parse_process_char. now rewrite Hs, Hc. Qed.

Lemma in_quoted_EOL q :
  state q = IN_QUOTED_FIELD -> parse_process_char q EOL = Some q.
Proof. intros Hs. unfold parse_process_char. now rewrite Hs. Qed.

(** The body of a quoted field, up to its closing quote. *)
Lemma reading_quoted_body f : forall p cur q rest,
  parse_chars p cur = Some q ->
  state q = IN_QUOTED_FIELD ->
  exists p' cur' q',
    parse_chars p' cur' = Some q'
    /\ reading p cur (copy_data f ++ String quotechar rest)
       = reading p' cur' (String quotechar rest)
    /\ state q' = IN_QUOTED_FIELD
    /\ field q' = (field q ++ f)%string
    /\ fields q' = fields q.
Proof.
  induction f as [|c f IH]; intros p cur q rest Hq Hs.
  - exists p, cur, q. cbn. rewrite string_app_nil_r. tauto.
  - cbn [copy_data]. destruct (Ascii.eqb_spec c quotechar) as [-> | Hc].
    + (* a quote, written twice *)
      cbn [append].
      rewrite reading_char by apply ends_line_quotechar.
      rewrite reading_char by apply ends_line_quotechar.
      set (q1 := set_state QUOTE_IN_QUOTED_FIELD q).
      set (q2 := set_state IN_QUOTED_FIELD (parse_add_char q1 quotechar)).
      assert (parse_chars p ((cur ++ String quotechar "") ++ String quotechar "")
              = Some q2) as Hq2.
      { rewrite (parse_chars_snoc p _ q1).
        - reflexivity.
        - rewrite (parse_chars_snoc _ _ _ _ Hq).
          unfold parse_process_char. now rewrite Hs. }
      destruct (IH p _ q2 rest Hq2 eq_refl) as (p' & cur' & q' & H1 & H2 & H3 & H4 & H5).
      exists p', cur', q'. repeat split; try assumption.
      rewrite H4. cbn. now rewrite string_app_assoc.
    + apply Ascii.eqb_neq in Hc. cbn [append].
      pose proof (in_quoted_plain q c Hs Hc) as Hstep.
      destruct (ends_line c (copy_data f ++ String quotechar rest)) eqn:Hend.
      * (* the line ends inside the quotes *)
        rewrite (reading_line_end p cur q c _ _ _ Hq Hend Hstep
                   (in_quoted_EOL (parse_add_char q c) Hs)).
        cbn [parse_add_char state]. rewrite Hs. cbn [is_start_record].
        destruct (IH (parse_add_char q c) "" (parse_add_char q c) rest
                    eq_refl Hs)
          as (p' & cur' & q' & H1 & H2 & H3 & H4 & H5).
        exists p', cur', q'. repeat split; try assumption.
        rewrite H4. cbn. now rewrite string_app_assoc.
      * rewrite (reading_char _ _ _ _ Hend).
        assert (parse_chars p (cur ++ String c "") = Some (parse_add_char q c))
          as Hq' by now rewrite (parse_chars_snoc _ _ _ _ Hq).
        destruct (IH p _ (parse_add_char q c) rest Hq' Hs)
          as (p' & cur' & q' & H1 & H2 & H3 & H4 & H5).
        exists p', cur', q'. repeat split; try assumption.
        rewrite H4. cbn. now rewrite string_app_assoc.
Qed.

Lemma special_false c :
  special c = false ->
  Ascii.eqb c delimiter = false /\ Ascii.eqb c quotechar = false
  /\ is_newline c = false /\ forall s, ends_line c s = false.
Proof.
  unfold special, is_newline, ends_line, lineterminator. cbn [mem_char].
  destruct (Ascii.eqb c delimiter), (Ascii.eqb c quotechar),
    (Ascii.eqb c CR), (Ascii.eqb c LF); cbn; intros H; try discriminate H.
  repeat split.
Qed.

Lemma needs_quotes_cons c f :
  needs_quotes (String c f) = false -> special c = false /\ needs_quotes f = false.
Proof. cbn. apply orb_false_iff. Qed.

Lemma copy_data_plain f : needs_quotes f = false -> copy_data f = f.
Proof.
  induction f as [|c f IH]; [reflexivity|].
  intros H. apply needs_quotes_cons in H. destruct H as [Hc Hf].
  apply special_false in Hc. destruct Hc as (_ & Hq & _).
  cbn [copy_data]. rewrite Hq. now rewrite IH.
Qed.

(** The rest of an unquoted field: no line ends in it. *)
Lemma reading_plain_body f : forall p cur q rest,
  parse_chars p cur = Some q ->
  state q = IN_FIELD ->
  needs_quotes f = false ->
  reading p cur (f ++ rest) = reading p (cur ++ f) rest
  /\ parse_chars p (cur ++ f)
     = Some (mkparser IN_FIELD (field q ++ f) (fields q)).
Proof.
  induction f as [|c f IH]; intros p cur q rest Hq Hs Hf.
  - cbn. rewrite !string_app_nil_r. split; [reflexivity|].
    rewrite Hq. destruct q as [st fd fs]. cbn in *. now subst st.
  - apply needs_quotes_cons in Hf. destruct Hf as [Hc Hf].
    apply special_false in Hc. destruct Hc as (Hd & _ & Hn & Hend).
    cbn [append]. rewrite (reading_char _ _ _ _ (Hend _)).
    assert (parse_chars p (cur ++ String c "") = Some (parse_add_char q c)) as Hq'.
    { rewrite (parse_chars_snoc _ _ _ _ Hq).
      unfold parse_process_char. now rewrite Hs, Hn, Hd. }
    destruct (IH p _ (parse_add_char q c) rest Hq' Hs Hf) as [H1 H2].
    replace (cur ++ String c f)%string with ((cur ++ String c "") ++ f)%string
      by now rewrite string_app_assoc.
    split; [exact H1|]. rewrite H2. cbn. now rewrite string_app_assoc.
Qed.

(** The first character of a field that is neither a quote, a delimiter nor a
    line end opens an unquoted field. *)
Lemma start_plain_field q c :
  state q = START_FIELD \/ state q = START_RECORD ->
  special c = false ->
  parse_process_char q (Ch c)
  = Some (mkparser IN_FIELD (field q ++ String c "") (fields q)).
Proof.
  intros Hs Hc. apply special_false in Hc. destruct Hc as (Hd & Hq & Hn & _).
  unfold parse_process_char, start_field.
  destruct Hs as [-> | ->]; rewrite ?Hn, Hq, Hd; reflexivity.
Qed.

Lemma start_quoted_field q :
  state q = START_FIELD \/ state q = START_RECORD ->
  parse_process_char q (Ch quotechar)
  = Some (mkparser IN_QUOTED_FIELD (field q) (fields q)).
Proof.
  intros Hs. unfold parse_process_char, start_field.
  destruct Hs as [-> | ->]; reflexivity.
Qed.

Lemma reading_quoted_field f p cur q rest :
  parse_chars p cur = Some q ->
  state q = START_FIELD \/ state q = START_RECORD ->
  field q = "" ->
  exists p' cur' q',
    parse_chars p' cur' = Some q'
    /\ reading p cur (join_append true f ++ rest) = reading p' cur' rest
    /\ after_field q' f (fields q)
    /\ state q' = QUOTE_IN_QUOTED_FIELD.
Proof.
  intros Hq Hs Hf. unfold join_append. cbn [append].
  rewrite string_app_assoc. cbn [append].
  rewrite reading_char by apply ends_line_quotechar.
  set (q1 := mkparser IN_QUOTED_FIELD (field q) (fields q)).
  assert (parse_chars p (cur ++ String quotechar "") = Some q1) as Hq1.
  { rewrite (parse_chars_snoc _ _ _ _ Hq). now apply start_quoted_field. }
  destruct (reading_quoted_body f p _ q1 rest Hq1 eq_refl)
    as (p' & cur' & q' & H1 & H2 & H3 & H4 & H5).
  rewrite H2. rewrite reading_char by apply ends_line_quotechar.
  exists p', (cur' ++ String quotechar "")%string,
    (set_state QUOTE_IN_QUOTED_FIELD q').
  split; [|split; [reflexivity|split; [|reflexivity]]].
  - rewrite (parse_chars_snoc _ _ _ _ H1).
    unfold parse_process_char. now rewrite H3.
  - unfold after_field. cbn. rewrite H4, H5. cbn. rewrite Hf. cbn. tauto.
Qed.

Lemma reading_plain_field f p cur q rest :
  parse_chars p cur = Some q ->
  state q = START_FIELD \/ (state q = START_RECORD /\ fields q = []) ->
  field q = "" ->
  needs_quotes f = false ->
  exists p' cur' q',
    parse_chars p' cur' = Some q'
    /\ reading p cur (join_append false f ++ rest) = reading p' cur' rest
    /\ after_field q' f (fields q)
    /\ (state q' = START_RECORD -> f = "" /\ state q = START_RECORD).
Proof.
  intros Hq Hs Hfd Hf. unfold join_append. rewrite (copy_data_plain f Hf).
  destruct f as [|c f].
  - exists p, cur, q. cbn. split; [exact Hq|]. split; [reflexivity|].
    split; [|tauto].
    unfold after_field. split; [exact Hfd|]. split; [reflexivity|]. tauto.
  - apply needs_quotes_cons in Hf. destruct Hf as [Hc Hf].
    pose proof (special_false c Hc) as (_ & _ & _ & Hend).
    cbn [append]. rewrite (reading_char _ _ _ _ (Hend _)).
    set (q1 := mkparser IN_FIELD (field q ++ String c "") (fields q)).
    assert (parse_chars p (cur ++ String c "") = Some q1) as Hq1.
    { rewrite (parse_chars_snoc _ _ _ _ Hq). apply start_plain_field; tauto. }
    destruct (reading_plain_body f p _ q1 rest Hq1 eq_refl Hf) as [H1 H2].
    rewrite H1. eexists p, _, _. split; [exact H2|]. split; [reflexivity|].
    split; [|discriminate].
    unfold after_field. cbn. rewrite Hfd. cbn. tauto.
Qed.

(** One field as the writer writes it, quoted or not. *)
Lemma reading_field f p cur q rest :
  parse_chars p cur = Some q ->
  state q = START_FIELD \/ (state q = START_RECORD /\ fields q = []) ->
  field q = "" ->
  exists p' cur' q',
    parse_chars p' cur' = Some q'
    /\ reading p cur (join_append (needs_quotes f) f ++ rest) = reading p' cur' rest
    /\ after_field q' f (fields q)
    /\ (state q' = START_RECORD -> f = "" /\ state q = START_RECORD).
Proof.
  intros Hq Hs Hfd. destruct (needs_quotes f) eqn:E.
  - destruct (reading_quoted_field f p cur q rest Hq ltac:(tauto) Hfd)
      as (p' & cur' & q' & H1 & H2 & H3 & H4).
    exists p', cur', q'. split; [exact H1|]. split; [exact H2|].
    split; [exact H3|]. rewrite H4. discriminate.
  - now apply reading_plain_field.
Qed.

Lemma after_field_delimiter q f fs :
  after_field q f fs ->
  parse_process_char q (Ch delimiter) = Some (mkparser START_FIELD "" (fs ++ [f])).
Proof.
  intros (Hf & Hfs & Hs). unfold parse_process_char, start_field.
  destruct q as [st fd fds]. cbn in *. subst fd fds.
  destruct Hs as [-> | [-> | [[-> _] | (-> & _ & _)]]]; reflexivity.
Qed.

Lemma after_field_CR q f fs :
  after_field q f fs ->
  state q <> START_RECORD ->
  parse_process_char q (Ch CR) = Some (mkparser EAT_CRNL "" (fs ++ [f])).
Proof.
  intros (Hf & Hfs & Hs) Hne. unfold parse_process_char, start_field.
  destruct q as [st fd fds]. cbn in *. subst fd fds.
  destruct Hs as [-> | [-> | [[-> _] | (-> & _ & _)]]];
    [reflexivity | reflexivity | reflexivity | contradiction].
Qed.

(** The fields of a record after the first, each behind its delimiter. *)
Lemma reading_join_tail fs : forall n p cur q f0 fs0 rest,
  parse_chars p cur = Some q ->
  after_field q f0 fs0 ->
  exists p' cur' q' fl done,
    parse_chars p' cur' = Some q'
    /\ reading p cur (join (S n) fs ++ rest) = reading p' cur' rest
    /\ after_field q' fl done
    /\ (done ++ [fl] = fs0 ++ f0 :: fs)%list
    /\ (state q' = START_RECORD -> fs = [] /\ state q = START_RECORD).
Proof.
  induction fs as [|f fs IH]; intros n p cur q f0 fs0 rest Hq Ha.
  - exists p, cur, q, f0, fs0. cbn. tauto.
  - cbn [join]. change (0 <? S n)%nat with true. cbv iota.
    rewrite !string_app_assoc. cbn [append].
    rewrite reading_char by apply ends_line_delimiter.
    set (q1 := mkparser START_FIELD "" (fs0 ++ [f0])).
    assert (parse_chars p (cur ++ String delimiter "") = Some q1) as Hq1.
    { rewrite (parse_chars_snoc _ _ _ _ Hq). now apply after_field_delimiter. }
    destruct (reading_field f p _ q1 (join (S (S n)) fs ++ rest) Hq1
                (or_introl eq_refl) eq_refl)
      as (p2 & cur2 & q2 & Hq2 & Hr2 & Ha2 & Hs2).
    rewrite Hr2.
    destruct (IH (S n) p2 cur2 q2 f (fs0 ++ [f0])%list rest Hq2 Ha2)
      as (p3 & cur3 & q3 & fl & done & Hq3 & Hr3 & Ha3 & Hd3 & Hs3).
    exists p3, cur3, q3, fl, done.
    split; [exact Hq3|]. split; [exact Hr3|]. split; [exact Ha3|]. split.
    + rewrite Hd3, <- app_assoc. reflexivity.
    + intros H. destruct (Hs3 H) as [_ H2]. destruct (Hs2 H2) as [_ H1].
      discriminate H1.
Qed.

(** The line terminator after the last field yields the record. *)
Lemma reading_row_end p cur q f fs rest :
  parse_chars p cur = Some q ->
  after_field q f fs ->
  state q <> START_RECORD ->
  reading p cur (lineterminator ++ rest)
  = option_map (cons (fs ++ [f])%list) (reading parse_reset "" rest).
Proof.
  intros Hq Ha Hne. unfold lineterminator. cbn [append].
  rewrite reading_char by reflexivity.
  set (q1 := mkparser EAT_CRNL "" (fs ++ [f])).
  assert (parse_chars p (cur ++ String CR "") = Some q1) as Hq1.
  { rewrite (parse_chars_snoc _ _ _ _ Hq). now apply after_field_CR. }
  rewrite (reading_line_end p _ q1 LF rest q1 (set_state START_RECORD q1) Hq1);
    reflexivity.
Qed.

Lemma reading_empty_row rest :
  reading parse_reset "" (lineterminator ++ rest)
  = option_map (cons []) (reading parse_reset "" rest).
Proof.
  unfold lineterminator. cbn [append].
  rewrite reading_char by reflexivity.
  rewrite (reading_line_end parse_reset _ (set_state EAT_CRNL parse_reset) LF rest
             (set_state EAT_CRNL parse_reset) parse_reset); reflexivity.
Qed.

Lemma join_append_empty quoted f : join_append quoted f = "" -> quoted = false /\ f = "".
Proof.
  destruct quoted; cbn; [discriminate|].
  destruct f as [|c f]; [tauto|]. cbn [copy_data].
  destruct (Ascii.eqb c quotechar); discriminate.
Qed.

Lemma join_first_empty f fs : join 0 (f :: fs) = "" -> f = "" /\ fs = [].
Proof.
  cbn [join]. change (0 <? 0)%nat with false. cbv iota. cbn [append].
  destruct (join_append (needs_quotes f) f) eqn:E.
  - apply join_append_empty in E. destruct E as [_ ->].
    destruct fs; [tauto|]. cbn. discriminate.
  - cbn. discriminate.
Qed.

(** One record: what the writer appends is read back as the record. *)
Lemma reading_writerow r rest :
  reading parse_reset "" (writerow r ++ rest)
  = option_map (cons r) (reading parse_reset "" rest).
Proof.
  unfold writerow. cbv zeta.
  destruct r as [|f fs].
  - cbn [join List.length Nat.ltb Nat.leb andb append]. apply reading_empty_row.
  - change (0 <? List.length (f :: fs))%nat with true. cbn [andb].
    rewrite string_app_assoc.
    destruct (String.eqb_spec (join 0 (f :: fs)) "") as [E | E].
    + apply join_first_empty in E. destruct E as [-> ->].
      destruct (reading_quoted_field "" parse_reset "" parse_reset
                  (lineterminator ++ rest) eq_refl (or_intror eq_refl) eq_refl)
        as (p1 & cur1 & q1 & Hq1 & Hr1 & Ha1 & Hs1).
      rewrite Hr1.
      rewrite (reading_row_end p1 cur1 q1 "" [] rest Hq1 Ha1);
        [reflexivity | rewrite Hs1; discriminate].
    + assert (join 0 (f :: fs)
              = (join_append (needs_quotes f) f ++ join 1 fs)%string) as Ej
        by reflexivity.
      rewrite Ej, string_app_assoc.
      destruct (reading_field f parse_reset "" parse_reset
                  (join 1 fs ++ lineterminator ++ rest) eq_refl
                  (or_intror (conj eq_refl eq_refl)) eq_refl)
        as (p1 & cur1 & q1 & Hq1 & Hr1 & Ha1 & Hs1).
      rewrite Hr1.
      destruct (reading_join_tail fs 0 p1 cur1 q1 f [] (lineterminator ++ rest)
                  Hq1 Ha1)
        as (p2 & cur2 & q2 & fl & done & Hq2 & Hr2 & Ha2 & Hd2 & Hs2).
      rewrite Hr2.
      rewrite (reading_row_end p2 cur2 q2 fl done rest Hq2 Ha2).
      * now rewrite Hd2.
      * intros H. destruct (Hs2 H) as [-> H1]. destruct (Hs1 H1) as [-> _].
        apply E. reflexivity.
Qed.

(** The reader returns the records the writer was given, whatever characters
    their fields hold. *)
Lemma reader_writerows rows : reader (writerows rows) = Some rows.
Proof.
  unfold reader, file_lines. fold (reading parse_reset "" (writerows rows)).
  induction rows as [|r rows IH]; [reflexivity|].
  cbn [writerows]. rewrite reading_writerow, IH. reflexivity.
Qed.


(* ------------------------------------------------------------------ *)
(** ** The reader under a field size limit *)

Lemma length_snoc f c :
  String.length (f ++ String c "") = S (String.length f).
Proof. induction f as [|a f IH]; cbn; [reflexivity | now rewrite IH]. Qed.


Lemma parser_fits_add_back limit p c :
  parser_fits limit (parse_add_char p c) -> parser_fits limit p.
Proof.
  unfold parser_fits, parse_add_char, field_fits. cbn.
  rewrite length_snoc. intros [Hf Hfs]. split; [lia | exact Hfs].
Qed.





















Section ExportRoundTrip.

Context {FT : FloatText}.

Lemma export_csv_rows start_date end_date d :
  export_csv start_date end_date d
  = writerows (csv_header :: map row_fields (get_entries_range start_date end_date d)).
Proof.
  unfold export_csv, get_entries_range. cbn [writerows].
  destruct (both_given start_date end_date) as [[s e]|]; reflexivity.
Qed.




End ExportRoundTrip.


(** C10: with exactly one end of the range supplied (the other left out, or
    given as the empty text), [List] and the CSV export ignore the range and
    take every persisted record, as they do with no range at all: the listing
    is a rearrangement of the persisted records, and the exported file is the
    header row followed by one row for each of them. *)
Theorem one_sided_range_is_ignored (FT : FloatText) (d : db) (bound : string) :
  get_entries_range (Some bound) None d = get_entries_range None None d
  /\ get_entries_range None (Some bound) d = get_entries_range None None d
  /\ get_entries_range (Some bound) (Some "") d = get_entries_range None None d
  /\ get_entries_range (Some "") (Some bound) d = get_entries_range None None d
  /\ export_csv (Some bound) None d = export_csv None None d
  /\ export_csv None (Some bound) d = export_csv None None d
  /\ export_csv (Some bound) (Some "") d = export_csv None None d
  /\ export_csv (Some "") (Some bound) d = export_csv None None d
  /\ Permutation (get_entries_range None None d) (expenses d)
  /\ forall start_date end_date,
       (start_date = Some bound /\ end_date = None)
       \/ (start_date = None /\ end_date = Some bound)
       \/ (start_date = Some bound /\ end_date = Some "")
       \/ (start_date = Some "" /\ end_date = Some bound) ->
       Permutation (get_entries_range start_date end_date d) (expenses d)
       /\ exists rows,
            Permutation rows (expenses d)
            /\ export_csv start_date end_date d
               = writerows (["id"; "category"; "amount"; "date"; "note"]
                            :: map row_fields rows)
            /\ reader (export_csv start_date end_date d)
               = Some (["id"; "category"; "amount"; "date"; "note"]
                       :: map row_fields rows).
Proof.
  assert (both_given (Some bound) (Some "") = None) as E1.
  { unfold both_given, truthy_str. cbn. now rewrite andb_false_r. }
  assert (both_given (Some "") (Some bound) = None) as E2 by reflexivity.
  assert (forall start_date end_date,
            both_given start_date end_date = None ->
            get_entries_range start_date end_date d
            = sort_by entry_before (expenses d)) as Hlist.
  { intros s e H. unfold get_entries_range. now rewrite H. }
  assert (forall start_date end_date,
            both_given start_date end_date = None ->
            export_csv start_date end_date d = export_csv None None d) as Hexp.
  { intros s e H. unfold export_csv. now rewrite H. }
  rewrite (Hlist (Some bound) None eq_refl), (Hlist None (Some bound) eq_refl),
    (Hlist _ _ E1), (Hlist _ _ E2), (Hlist None None eq_refl),
    (Hexp (Some bound) None eq_refl), (Hexp None (Some bound) eq_refl),
    (Hexp _ _ E1), (Hexp _ _ E2).
  do 8 (split; [reflexivity|]). split; [apply sort_by_perm|].
  intros s e Hone.
  assert (both_given s e = None) as Hb
    by (destruct Hone as [[-> ->] | [[-> ->] | [[-> ->] | [-> ->]]]];
        reflexivity || assumption).
  rewrite (Hlist s e Hb), (Hexp s e Hb).
  split; [apply sort_by_perm|].
  exists (sort_by entry_before (expenses d)).
  split; [apply sort_by_perm|]. fold csv_header.
  rewrite export_csv_rows. rewrite (Hlist None None eq_refl).
  split; [reflexivity | apply reader_writerows].
Qed.

(* ------------------------------------------------------------------ *)
(** ** The budget setting *)

Lemma settings_get_put_same key v t : settings_get key (settings_put key v t) = Some v.
Proof. unfold settings_put. cbn. now rewrite String.eqb_refl. Qed.

Lemma settings_get_filter_other key k t :
  k <> key ->
  settings_get k (filter (fun kv => negb (fst kv =? key)%string) t) = settings_get k t.
Proof.
  intros Hne. induction t as [|[k' v'] t IH]; [reflexivity|].
  cbn. destruct (String.eqb_spec k' key) as [-> | Hk']; cbn.
  - destruct (String.eqb_spec key k); [congruence | exact IH].
  - destruct (String.eqb_spec k' k); [reflexivity | exact IH].
Qed.

Lemma settings_get_put_other key k v t :
  k <> key -> settings_get k (settings_put key v t) = settings_get k t.
Proof.
  intros Hne. unfold settings_put. cbn.
  destruct (String.eqb_spec key k); [congruence|].
  now apply settings_get_filter_other.
Qed.

Lemma filter_key_absent key (t : list (string * Q)) :
  ~ In key (map fst (filter (fun kv => negb (fst kv =? key)%string) t)).
Proof.
  rewrite in_map_iff. intros ([k v] & Hk & Hin). cbn in Hk. subst k.
  apply filter_In in Hin. destruct Hin as [_ H]. cbn in H.
  now rewrite String.eqb_refl in H.
Qed.

Lemma filter_key_twice key v (t : list (string * Q)) :
  filter (fun kv => negb (fst kv =? key)%string) (settings_put key v t)
  = filter (fun kv => negb (fst kv =? key)%string) t.
Proof.
  unfold settings_put. cbn. rewrite String.eqb_refl. cbn.
  apply filter_idempotent.
Qed.

(** X1: the budget that was set is the budget that is read, a later setting
    replaces an earlier one altogether (one budget row at most, the store is
    as if only the last value had been set), and setting a budget leaves
    the expenses and the id counter alone. *)
Theorem set_budget_limit_get_replace (a b : Q) (d : db) :
  get_budget_limit (set_budget_limit a d) = Some a
  /\ set_budget_limit b (set_budget_limit a d) = set_budget_limit b d
  /\ List.length (filter (fun kv => (fst kv =? "budget")%string)
                         (settings (set_budget_limit a d))) = 1%nat
  /\ expenses (set_budget_limit a d) = expenses d
  /\ sqlite_sequence (set_budget_limit a d) = sqlite_sequence d
  /\ (forall k, k <> "budget" ->
        settings_get k (settings (set_budget_limit a d)) = settings_get k (settings d)).
Proof.
  split; [apply settings_get_put_same|]. split; [|split; [|split; [|split]]].
  - unfold set_budget_limit. cbn [expenses sqlite_sequence settings].
    f_equal. unfold settings_put at 1. now rewrite filter_key_twice.
  - unfold set_budget_limit, settings_put. cbn [settings filter fst].
    rewrite String.eqb_refl. cbn [List.length]. f_equal.
    rewrite filter_filter.
    rewrite (proj2 (List.length_zero_iff_nil _)); [reflexivity|].
    induction (settings d) as [|[k v] t IH]; [reflexivity|].
    cbn. destruct (k =? "budget")%string; cbn; exact IH.
  - reflexivity.
  - reflexivity.
  - intros k Hk. now apply settings_get_put_other.
Qed.

(* ------------------------------------------------------------------ *)
(** ** What the operations keep true of the store *)

Lemma store_ok_init : store_ok init_db.
Proof.
  unfold store_ok, init_db. cbn [expenses sqlite_sequence map].
  split; [constructor|]. split; [intros r []|]. split; [intros r [] | lia].
Qed.

Lemma store_ok_insert category amount dt note d :
  valid dt = true -> store_ok d ->
  store_ok (insert_expense category amount (strftime dt) note d).
Proof.
  intros Hv (Hnd & Hid & Hdate & Hseq).
  unfold store_ok, insert_expense. cbn [expenses sqlite_sequence].
  split; [|split; [|split]].
  - rewrite map_app. cbn [map e_id].
    apply NoDup_app_remove_l with (l := []). cbn.
    apply Permutation_NoDup with (l := (sqlite_sequence d + 1) :: map e_id (expenses d)).
    + apply Permutation_cons_append.
    + constructor; [|exact Hnd].
      rewrite in_map_iff. intros (r & Hr & Hin). apply Hid in Hin. lia.
  - intros r Hin. apply in_app_iff in Hin. destruct Hin as [Hin | [<- | []]].
    + apply Hid in Hin. lia.
    + cbn. lia.
  - intros r Hin. apply in_app_iff in Hin. destruct Hin as [Hin | [<- | []]].
    + now apply Hdate.
    + exists dt. now split.
  - lia.
Qed.

Lemma store_ok_add today category amount date_str note d :
  valid today = true -> store_ok d ->
  store_ok (snd (add_expense_db today category amount date_str note d)).
Proof.
  intros Hv Hok.
  destruct (add_expense_db today category amount date_str note d) as [[w|e] d'] eqn:E.
  - destruct (add_expense_db_stores_canonical_date _ _ _ _ _ _ _ _ Hv E)
      as (dt & Hdt & -> & _).
    now apply store_ok_insert.
  - unfold add_expense_db in E.
    destruct (date_str =? "")%string; [discriminate|].
    destruct (strptime date_str); [discriminate|].
    injection E as _ <-. exact Hok.
Qed.

Lemma NoDup_map_filter {A B} (f : A -> B) (p : A -> bool) l :
  NoDup (map f l) -> NoDup (map f (filter p l)).
Proof.
  induction l as [|x l IH]; cbn; intros H; [constructor|].
  inversion H as [|? ? Hnotin Hnd]; subst.
  destruct (p x); cbn; [|now apply IH].
  constructor; [|now apply IH].
  rewrite in_map_iff in *. intros (y & Hy & Hin).
  apply Hnotin. exists y. split; [exact Hy|]. now apply filter_In in Hin.
Qed.

Lemma store_ok_delete entry_id d : store_ok d -> store_ok (delete_entry_db entry_id d).
Proof.
  intros (Hnd & Hid & Hdate & Hseq).
  unfold store_ok, delete_entry_db. cbn [expenses sqlite_sequence].
  split; [now apply NoDup_map_filter|].
  split; [|split; [|exact Hseq]];
    intros r Hin; apply filter_In in Hin; destruct Hin as [Hin _]; auto.
Qed.

Lemma store_ok_set_budget a d : store_ok d -> store_ok (set_budget_limit a d).
Proof. intros H. exact H. Qed.

Lemma store_ok_apply_op o d : op_clock_ok o -> store_ok d -> store_ok (apply_op o d).
Proof.
  destruct o; cbn [apply_op op_clock_ok]; intros Hc Hok.
  - now apply store_ok_add.
  - now apply store_ok_delete.
  - now apply store_ok_set_budget.
Qed.

Lemma add_expense_db_four_digit_year today category amount date_str note d w d' :
  valid today = true ->
  four_digit_years today date_str ->
  add_expense_db today category amount date_str note d = (Ok w, d') ->
  exists dt,
    valid dt = true
    /\ 1000 <= year dt
    /\ d' = insert_expense category amount (strftime dt) note d
    /\ (date_str = "" -> dt = today)
    /\ (date_str <> "" -> strptime date_str = Some dt).
Proof.
  intros Hv [Hy Hp] Hadd.
  destruct (add_expense_db_stores_canonical_date _ _ _ _ _ _ _ _ Hv Hadd)
    as (dt & Hdt & Hd & H1 & H2).
  exists dt. split; [exact Hdt|]. split; [|tauto].
  destruct (String.eqb_spec date_str "") as [E | E].
  - now rewrite (H1 E).
  - apply Hp. now apply H2.
Qed.

Lemma ten_character_dates_apply_op o d :
  op_dates_ok o ->
  (forall r, In r (expenses d) -> ten_character_date (e_date r)) ->
  forall r, In r (expenses (apply_op o d)) -> ten_character_date (e_date r).
Proof.
  destruct o as [today category amount date_str note | entry_id | a];
    cbn [apply_op op_dates_ok]; intros Ho Hd r Hin.
  - destruct Ho as (Hv & _ & Hy).
    destruct (add_expense_db today category amount date_str note d)
      as [[w|e] d'] eqn:E; cbn [snd] in Hin.
    + destruct (add_expense_db_four_digit_year _ _ _ _ _ _ _ _ Hv Hy E)
        as (dt & Hdt & Hyr & -> & _).
      unfold insert_expense in Hin. cbn [expenses] in Hin.
      apply in_app_iff in Hin. destruct Hin as [Hin | [<- | []]];
        [now apply Hd|].
      exists dt. cbn [e_date]. tauto.
    + unfold add_expense_db in E.
      destruct (date_str =? "")%string; [discriminate|].
      destruct (strptime date_str); [discriminate|].
      injection E as _ <-. now apply Hd.
  - cbn [delete_entry_db expenses] in Hin. apply filter_In in Hin.
    now apply Hd.
  - now apply Hd.
Qed.

Lemma op_dates_ok_clock o : op_dates_ok o -> op_clock_ok o.
Proof. destruct o; cbn; tauto. Qed.

(** X2: starting from the store [init_db] creates, any sequence of adds,
    deletes and budget settings (each add at a clock that shows a date of the
    calendar and for a date text of ASCII characters, the clock and the date
    given having years of four digits) leaves
    a store in which no two records share an id, every id is positive and at
    most the id counter, and every date is the canonical ten-character text of
    a calendar date; so a listing never shows an id twice. *)
Theorem store_ok_after_operations (ops : list op) :
  Forall op_dates_ok ops ->
  let d := fold_left (fun d o => apply_op o d) ops init_db in
  store_ok d
  /\ (forall r, In r (expenses d) -> ten_character_date (e_date r))
  /\ forall start_date end_date,
       NoDup (map e_id (get_entries_range start_date end_date d)).
Proof.
  intros Hops. cbv zeta.
  assert (forall d0,
            store_ok d0 /\
            (forall r, In r (expenses d0) -> ten_character_date (e_date r)) ->
            store_ok (fold_left (fun d o => apply_op o d) ops d0) /\
            (forall r, In r (expenses (fold_left (fun d o => apply_op o d) ops d0)) ->
               ten_character_date (e_date r))) as Hrun.
  { induction Hops as [|o ops Ho Hops IH]; intros d0 Hd0; cbn [fold_left].
    - exact Hd0.
    - apply IH. destruct Hd0 as [Hok Hten]. split.
      + apply store_ok_apply_op; [now apply op_dates_ok_clock | exact Hok].
      + now apply ten_character_dates_apply_op. }
  destruct (Hrun init_db (conj store_ok_init (fun r (H : In r []) => match H with end)))
    as [Hok Hten].
  split; [exact Hok|]. split; [exact Hten|].
  intros s e. destruct Hok as (Hnd & _).
  unfold get_entries_range.
  destruct (both_given s e) as [[s' e']|].
  - eapply Permutation_NoDup.
    + apply Permutation_map. symmetry. apply sort_by_perm.
    + now apply NoDup_map_filter.
  - eapply Permutation_NoDup.
    + apply Permutation_map. symmetry. apply sort_by_perm.
    + exact Hnd.
Qed.

Lemma store_ok_after_operations_witness :
  Forall op_dates_ok
    [SetBudget 500; Add (mkdate 2024 3 3) "Food" 50 "2024-3-1" "";
     Add (mkdate 2024 3 3) "Rent" 900 "" ""; Delete 1;
     Add (mkdate 2024 3 4) "Food" 10 "bad date" ""]
  /\ store_ok
       (fold_left (fun d o => apply_op o d)
          [SetBudget 500; Add (mkdate 2024 3 3) "Food" 50 "2024-3-1" "";
           Add (mkdate 2024 3 3) "Rent" 900 "" ""; Delete 1;
           Add (mkdate 2024 3 4) "Food" 10 "bad date" ""]
          init_db).
Proof.
  assert (Forall op_dates_ok
            [SetBudget 500; Add (mkdate 2024 3 3) "Food" 50 "2024-3-1" "";
             Add (mkdate 2024 3 3) "Rent" 900 "" ""; Delete 1;
             Add (mkdate 2024 3 4) "Food" 10 "bad date" ""]) as H.
  { repeat constructor; cbn [year]; try lia;
      intros dt Hdt; vm_compute in Hdt;
      try discriminate Hdt; injection Hdt as <-; cbn [year]; lia. }
  split; [exact H|].
  exact (proj1 (store_ok_after_operations _ H)).
Defined.

Lemma sort_by_perm_cons {A} (before : A -> A -> bool) x l l' :
  Permutation l' (l ++ [x]) ->
  Permutation (sort_by before l') (x :: sort_by before l).
Proof.
  intros H. rewrite sort_by_perm, H, (sort_by_perm before l).
  symmetry. apply Permutation_cons_append.
Qed.

(** X3: a successful [Add] on a well-formed store, at a clock and for a date
    with years of four digits, appends exactly one record: it has the
    category, amount and note given, the canonical text of the date (today's
    when none was given), and an id one above the id counter, larger than
    every id in the store; nothing else changes, and the unfiltered listing
    afterwards is the listing before plus that record. *)
Theorem add_expense_db_appends_one_record
  today category amount date_str note d w d' :
  valid today = true ->
  four_digit_years today date_str ->
  store_ok d ->
  add_expense_db today category amount date_str note d = (Ok w, d') ->
  exists dt,
    let r := mkexpense (sqlite_sequence d + 1) category amount (strftime dt) note in
    valid dt = true
    /\ 1000 <= year dt
    /\ (date_str = "" -> dt = today)
    /\ (date_str <> "" -> strptime date_str = Some dt)
    /\ expenses d' = (expenses d ++ [r])%list
    /\ sqlite_sequence d' = sqlite_sequence d + 1
    /\ settings d' = settings d
    /\ (forall r0, In r0 (expenses d) -> e_id r0 < e_id r)
    /\ Permutation (get_entries_range None None d')
                   (r :: get_entries_range None None d).
Proof.
  intros Hv Hy (Hnd & Hid & _) Hadd.
  destruct (add_expense_db_four_digit_year _ _ _ _ _ _ _ _ Hv Hy Hadd)
    as (dt & Hdt & Hyr & -> & H1 & H2).
  exists dt. cbv zeta. split; [exact Hdt|]. split; [exact Hyr|].
  split; [exact H1|]. split; [exact H2|].
  split; [reflexivity|]. split; [reflexivity|]. split; [reflexivity|]. split.
  - intros r0 Hin. apply Hid in Hin. cbn. lia.
  - unfold get_entries_range. cbn [both_given].
    apply sort_by_perm_cons. reflexivity.
Qed.

Lemma four_digit_years_example :
  four_digit_years (mkdate 2024 3 3) "2024-3-1".
Proof.
  split; [cbn [year]; lia|].
  intros dt Hdt. vm_compute in Hdt. injection Hdt as <-. cbn [year]. lia.
Defined.

Lemma add_expense_db_appends_one_record_witness :
  valid (mkdate 2024 3 3) = true
  /\ four_digit_years (mkdate 2024 3 3) "2024-3-1"
  /\ store_ok init_db
  /\ exists dt,
       expenses (snd (add_expense_db (mkdate 2024 3 3) "Food" 50 "2024-3-1" ""
                        init_db))
       = [mkexpense 1 "Food" 50 (strftime dt) ""]
       /\ strptime "2024-3-1" = Some dt.
Proof.
  split; [reflexivity|]. split; [exact four_digit_years_example|].
  split; [exact store_ok_init|].
  destruct (add_expense_db_appends_one_record (mkdate 2024 3 3) "Food" 50%Q
              "2024-3-1" "" init_db None
              (snd (add_expense_db (mkdate 2024 3 3) "Food" 50 "2024-3-1" ""
                      init_db))
              eq_refl four_digit_years_example store_ok_init eq_refl)
    as (dt & _ & _ & _ & Hp & He & _).
  exists dt. split; [exact He | apply Hp; discriminate].
Defined.

Lemma sqlite_sequence_apply_op o d :
  sqlite_sequence d <= sqlite_sequence (apply_op o d).
Proof.
  destruct o as [today category amount date_str note | entry_id | a];
    cbn [apply_op]; try (cbn; lia).
  unfold add_expense_db.
  destruct (date_str =? "")%string; [cbn; lia|].
  destruct (strptime date_str); cbn; lia.
Qed.

Lemma sqlite_sequence_run ops : forall d,
  sqlite_sequence d <= sqlite_sequence (fold_left (fun d o => apply_op o d) ops d).
Proof.
  induction ops as [|o ops IH]; intros d; cbn [fold_left]; [lia|].
  pose proof (sqlite_sequence_apply_op o d). pose proof (IH (apply_op o d)). lia.
Qed.

(** X4: ids are never reused.  Whatever operations follow (deletes included),
    the record a later successful [Add] creates has an id larger than the id
    of any record that was in the store before them. *)
Theorem add_never_reuses_an_id
  (d : db) (r : expense) (ops : list op)
  today category amount date_str note w d' :
  store_ok d ->
  In r (expenses d) ->
  add_expense_db today category amount date_str note
    (fold_left (fun d o => apply_op o d) ops d) = (Ok w, d') ->
  exists r', In r' (expenses d') /\ e_id r < e_id r'
             /\ e_id r' = sqlite_sequence d'
             /\ forall x, In x (expenses d') -> e_id x = e_id r' -> x = r'.
Proof.
  intros (_ & Hid & _) Hin Hadd.
  pose proof (sqlite_sequence_run ops d) as Hseq.
  apply add_expense_db_ok in Hadd. destruct Hadd as ([stored ->] & _).
  set (d1 := fold_left _ ops d) in *.
  exists (mkexpense (sqlite_sequence d1 + 1) category amount stored note).
  split; [cbn; apply in_app_iff; right; now left|].
  split; [apply Hid in Hin; cbn; lia|].
  split; [reflexivity|].
  intros x Hx Hxid. cbn [insert_expense expenses] in Hx.
  apply in_app_iff in Hx. destruct Hx as [Hx | [<- | []]]; [|reflexivity].
  exfalso. cbn in Hxid.
  (* the ids of the store before the add are at most its counter *)
  revert Hx Hxid. generalize x. clear x.
  assert (forall ops0 d0,
            (forall x, In x (expenses d0) -> e_id x <= sqlite_sequence d0) ->
            forall x, In x (expenses (fold_left (fun d o => apply_op o d) ops0 d0)) ->
                      e_id x <= sqlite_sequence
                                  (fold_left (fun d o => apply_op o d) ops0 d0))
    as Hbound.
  { induction ops0 as [|o ops0 IH]; intros d0 H0; cbn [fold_left]; [exact H0|].
    apply IH. intros x Hx.
    destruct o as [t c a ds n | eid | a]; cbn [apply_op] in *.
    - unfold add_expense_db in *.
      destruct (ds =? "")%string.
      + cbn in *. apply in_app_iff in Hx. destruct Hx as [Hx | [<- | []]].
        * apply H0 in Hx. lia.
        * cbn. lia.
      + destruct (strptime ds); cbn in *.
        * apply in_app_iff in Hx. destruct Hx as [Hx | [<- | []]].
          -- apply H0 in Hx. lia.
          -- cbn. lia.
        * now apply H0.
    - cbn in *. apply filter_In in Hx. destruct Hx as [Hx _]. now apply H0.
    - cbn in *. now apply H0. }
  intros x Hx Hxid.
  assert (e_id x <= sqlite_sequence d1) as Hle.
  { apply (Hbound ops d); [|exact Hx]. intros y Hy. apply Hid in Hy. lia. }
  lia.
Qed.

Lemma add_never_reuses_an_id_witness :
  let d := snd (add_expense_db (mkdate 2024 3 3) "Food" 50 "" "" init_db) in
  store_ok d
  /\ In (mkexpense 1 "Food" 50 "2024-03-03" "") (expenses d)
  /\ exists r',
       In r' (expenses (snd (add_expense_db (mkdate 2024 3 3) "Rent" 900 "" ""
                               (fold_left (fun d o => apply_op o d) [Delete 1] d))))
       /\ 1 < e_id r'.
Proof.
  cbv zeta.
  assert (store_ok (snd (add_expense_db (mkdate 2024 3 3) "Food" 50 "" "" init_db)))
    as Hok by (apply store_ok_add; [reflexivity | exact store_ok_init]).
  split; [exact Hok|]. split; [left; reflexivity|].
  destruct (add_never_reuses_an_id
              (snd (add_expense_db (mkdate 2024 3 3) "Food" 50 "" "" init_db))
              (mkexpense 1 "Food" 50 "2024-03-03" "") [Delete 1]
              (mkdate 2024 3 3) "Rent" 900%Q "" "" None _ Hok
              (or_introl eq_refl) eq_refl)
    as (r' & Hin & Hlt & _).
  exists r'. split; [exact Hin | exact Hlt].
Defined.

(** X5: adding a record and then deleting the id it was given restores the
    records (and the budget) of a well-formed store; only the id counter has
    moved on, so the id is not given out again. *)
Theorem add_then_delete_restores_records
  today category amount date_str note d w d' :
  store_ok d ->
  add_expense_db today category amount date_str note d = (Ok w, d') ->
  expenses (delete_entry_db (sqlite_sequence d') d') = expenses d
  /\ settings (delete_entry_db (sqlite_sequence d') d') = settings d
  /\ sqlite_sequence (delete_entry_db (sqlite_sequence d') d')
     = sqlite_sequence d + 1.
Proof.
  intros (_ & Hid & _) Hadd.
  apply add_expense_db_ok in Hadd. destruct Hadd as ([stored ->] & _).
  split; [|split; reflexivity].
  cbn [delete_entry_db insert_expense expenses sqlite_sequence].
  rewrite filter_app. cbn [filter e_id]. rewrite Z.eqb_refl. cbn [negb].
  rewrite app_nil_r. apply filter_id_when_all.
  intros r Hr. apply Hid in Hr. apply negb_true_iff, Z.eqb_neq. lia.
Qed.

Lemma add_then_delete_restores_records_witness :
  store_ok init_db
  /\ expenses
       (delete_entry_db 1
          (snd (add_expense_db (mkdate 2024 3 3) "Food" 50 "" "" init_db)))
     = expenses init_db.
Proof.
  split; [exact store_ok_init|].
  exact (proj1 (add_then_delete_restores_records (mkdate 2024 3 3) "Food" 50%Q
                  "" "" init_db None _ store_ok_init eq_refl)).
Defined.

(* ------------------------------------------------------------------ *)
(** ** Date texts: reading back what [strftime] writes *)

Lemma digit_facts k :
  0 <= k <= 9 -> is_digit (digit k) = true /\ digit_val (digit k) = k.
Proof.
  intros Hk.
  assert (k = 0 \/ k = 1 \/ k = 2 \/ k = 3 \/ k = 4 \/ k = 5 \/ k = 6 \/ k = 7
          \/ k = 8 \/ k = 9) as C by lia.
  repeat (destruct C as [-> | C]); try subst k; split; reflexivity.
Qed.

Lemma re_year_pad4 y rest :
  0 <= y <= 9999 -> re_year (pad4 y ++ rest) = [(y, rest)].
Proof.
  intros Hy. unfold pad4, pad2. cbn [append re_year].
  pose proof (Z.div_mod y 1000 ltac:(lia)) as E1.
  pose proof (Z.mod_pos_bound y 1000 ltac:(lia)) as B1.
  pose proof (Z.div_mod (y / 100) 10 ltac:(lia)) as E2.
  pose proof (Z.mod_pos_bound (y / 100) 10 ltac:(lia)) as B2.
  pose proof (Z.div_mod y 100 ltac:(lia)) as E3.
  pose proof (Z.mod_pos_bound y 100 ltac:(lia)) as B3.
  pose proof (Z.div_mod (y mod 100) 10 ltac:(lia)) as E4.
  pose proof (Z.mod_pos_bound (y mod 100) 10 ltac:(lia)) as B4.
  assert (y / 100 / 10 = y / 1000) as E5 by (rewrite Z.div_div by lia; reflexivity).
  destruct (digit_facts (y / 1000) ltac:(lia)) as [-> ->].
  destruct (digit_facts (y / 100 mod 10) ltac:(lia)) as [-> ->].
  destruct (digit_facts (y mod 100 / 10) ltac:(lia)) as [-> ->].
  destruct (digit_facts ((y mod 100) mod 10) ltac:(lia)) as [-> ->].
  cbn [andb]. do 2 f_equal. lia.
Qed.

Lemma re_date_by_parts s :
  re_date s
  = flat_map (fun '(y, s1) =>
      flat_map (fun s2 => map (fun '(m, d, s5) => (y, m, d, s5)) (re_month_day s2))
               (re_lit "-" s1))
      (re_year s).
Proof.
  unfold re_date, re_month_day.
  apply flat_map_ext. intros [y s1].
  apply flat_map_ext. intros s2.
  induction (re_month s2) as [|[m s3] l IH]; [reflexivity|].
  cbn [flat_map]. rewrite map_app, IH. f_equal.
  induction (re_lit "-" s3) as [|s4 l' IH']; [reflexivity|].
  cbn [flat_map]. rewrite map_app, IH'. f_equal.
  rewrite map_map. apply map_ext. now intros [dd s5].
Qed.

Lemma month_day_text_ok_all m d :
  1 <= m <= 12 -> 1 <= d <= 31 -> month_day_text_ok m d = true.
Proof.
  intros Hm Hd.
  assert (forallb (fun i => forallb (fun j => month_day_text_ok (Z.of_nat i) (Z.of_nat j))
                                    (seq 1 31)) (seq 1 12) = true) as Hall
    by (vm_compute; reflexivity).
  rewrite forallb_forall in Hall.
  specialize (Hall (Z.to_nat m) ltac:(apply in_seq; lia)).
  rewrite forallb_forall in Hall.
  specialize (Hall (Z.to_nat d) ltac:(apply in_seq; lia)).
  now rewrite !Z2Nat.id in Hall by lia.
Qed.

Lemma strptime_strftime dt : valid dt = true -> strptime (strftime dt) = Some dt.
Proof.
  intros Hv. pose proof Hv as Hv'. unfold valid in Hv'.
  apply valid_ymd_spec in Hv'. destruct Hv' as (Hy & Hm & Hd).
  pose proof (days_in_month_bounds (year dt) (month dt) Hm) as Hdim.
  unfold strptime. rewrite re_date_by_parts. unfold strftime.
  rewrite re_year_pad4 by lia. cbn [flat_map append re_lit].
  change (Ascii.eqb "-" "-") with true. cbv iota. cbn [flat_map].
  rewrite !app_nil_r.
  pose proof (month_day_text_ok_all (month dt) (day dt) Hm ltac:(lia)) as Hok.
  unfold month_day_text_ok in Hok. cbn [append] in Hok.
  destruct (re_month_day _) as [|[[m' d'] rest] l]; [discriminate|].
  rewrite !andb_true_iff in Hok. destruct Hok as [[H1 H2] H3].
  apply Z.eqb_eq in H1, H2. subst m' d'.
  cbn [map]. rewrite H3. cbn [andb]. unfold valid in Hv.
  rewrite Hv. now destruct dt.
Qed.

(** X6: at a clock and for a date with years of four digits, the date text an
    [Add] stores is a fixed point of the date handling: given again as the
    date of another [Add] it parses (to the same calendar date) and is stored
    unchanged.  In particular a date given in canonical form is stored as
    given, and a lenient form is stored as the canonical text of the date it
    parses to. *)
Theorem add_expense_db_date_is_normalised
  today category amount date_str note d w d' :
  valid today = true ->
  four_digit_years today date_str ->
  add_expense_db today category amount date_str note d = (Ok w, d') ->
  exists stored dt,
    expenses d' = (expenses d
                   ++ [mkexpense (sqlite_sequence d + 1) category amount stored note])%list
    /\ valid dt = true
    /\ 1000 <= year dt
    /\ stored = strftime dt
    /\ strptime stored = Some dt
    /\ (date_str <> "" -> strptime date_str = Some dt)
    /\ forall today2 category2 amount2 note2 d2,
         exists w2,
           add_expense_db today2 category2 amount2 stored note2 d2
           = (Ok w2, insert_expense category2 amount2 stored note2 d2).
Proof.
  intros Hv Hy Hadd.
  destruct (add_expense_db_four_digit_year _ _ _ _ _ _ _ _ Hv Hy Hadd)
    as (dt & Hdt & Hyr & -> & _ & Hp).
  exists (strftime dt), dt.
  pose proof (strptime_strftime dt Hdt) as Hrt.
  split; [reflexivity|]. split; [exact Hdt|]. split; [exact Hyr|].
  split; [reflexivity|].
  split; [exact Hrt|]. split; [exact Hp|].
  intros today2 category2 amount2 note2 d2. unfold add_expense_db.
  assert ((strftime dt =? "")%string = false) as Hne by reflexivity.
  rewrite Hne, Hrt. eauto.
Qed.

Lemma add_expense_db_date_is_normalised_witness :
  valid (mkdate 2024 3 3) = true
  /\ four_digit_years (mkdate 2024 3 3) "2024-3-1"
  /\ exists stored,
       expenses (snd (add_expense_db (mkdate 2024 3 3) "Food" 50 "2024-3-1" ""
                        init_db))
       = [mkexpense 1 "Food" 50 stored ""]
       /\ strptime stored = strptime "2024-3-1".
Proof.
  split; [reflexivity|]. split; [exact four_digit_years_example|].
  destruct (add_expense_db_date_is_normalised (mkdate 2024 3 3) "Food" 50%Q
              "2024-3-1" "" init_db None
              (snd (add_expense_db (mkdate 2024 3 3) "Food" 50 "2024-3-1" ""
                      init_db))
              eq_refl four_digit_years_example eq_refl)
    as (stored & dt & He & _ & _ & _ & Hs & Hp & _).
  exists stored. split; [exact He|].
  rewrite Hs. symmetry. apply Hp. discriminate.
Defined.

(* ------------------------------------------------------------------ *)
(** ** Ranges of dates, in the calendar *)

Lemma strftime_nonempty dt : strftime dt <> "".
Proof. unfold strftime, pad4. cbn [append]. discriminate. Qed.

Lemma store_ok_date d r :
  store_ok d -> In r (expenses d) -> exists dr, valid dr = true /\ e_date r = strftime dr.
Proof. intros (_ & _ & H & _). apply H. Qed.

Lemma date_between_calendar d s e r :
  store_ok d -> valid s = true -> valid e = true -> In r (expenses d) ->
  (date_between (strftime s) (strftime e) r = true
   <-> exists dr, valid dr = true /\ e_date r = strftime dr
                  /\ toordinal s <= toordinal dr <= toordinal e).
Proof.
  intros Hok Hs He Hin.
  destruct (store_ok_date d r Hok Hin) as (dr & Hdr & Er).
  rewrite date_between_spec, (in_date_range_calendar s e dr r Hs He Hdr Er).
  split.
  - intros H. exists dr. tauto.
  - intros (dr' & Hdr' & Er' & H).
    assert (dr' = dr) as ->; [|exact H].
    rewrite Er in Er'.
    pose proof (strptime_strftime dr Hdr) as H1.
    pose proof (strptime_strftime dr' Hdr') as H2.
    rewrite Er' in H1. congruence.
Qed.

(** X7: on a well-formed store, [List] between the canonical texts of two
    calendar dates returns exactly the records dated, in the calendar, from the
    first date to the second, both included: comparing the date texts is
    comparing the dates. *)
Theorem get_entries_range_is_a_calendar_range (d : db) (s e : date) :
  store_ok d -> valid s = true -> valid e = true ->
  forall r,
    In r (get_entries_range (Some (strftime s)) (Some (strftime e)) d)
    <-> In r (expenses d)
        /\ exists dr, valid dr = true /\ e_date r = strftime dr
                      /\ toordinal s <= toordinal dr <= toordinal e.
Proof.
  intros Hok Hs He r. unfold get_entries_range.
  rewrite (both_given_nonempty _ _ (strftime_nonempty s) (strftime_nonempty e)).
  rewrite sort_by_In, filter_In. split.
  - intros [Hin Hb]. split; [exact Hin|].
    now apply (date_between_calendar d s e r Hok Hs He Hin).
  - intros [Hin Hb]. split; [exact Hin|].
    now apply (date_between_calendar d s e r Hok Hs He Hin).
Qed.

Lemma get_entries_range_is_a_calendar_range_witness :
  store_ok example_march_db
  /\ valid (mkdate 2024 3 2) = true /\ valid (mkdate 2024 3 31) = true
  /\ (In (mkexpense 2 "Rent" 900 "2024-03-02" "")
         (get_entries_range (Some "2024-03-02") (Some "2024-03-31") example_march_db)
      <-> In (mkexpense 2 "Rent" 900 "2024-03-02" "") (expenses example_march_db)
          /\ exists dr, valid dr = true /\ "2024-03-02" = strftime dr
                        /\ toordinal (mkdate 2024 3 2) <= toordinal dr
                           <= toordinal (mkdate 2024 3 31)).
Proof.
  assert (store_ok example_march_db) as Hok.
  { unfold example_march_db. cbv zeta.
    apply store_ok_add; [reflexivity|]. apply store_ok_add; [reflexivity|].
    apply store_ok_set_budget, store_ok_init. }
  split; [exact Hok|]. split; [reflexivity|]. split; [reflexivity|].
  exact (get_entries_range_is_a_calendar_range example_march_db
           (mkdate 2024 3 2) (mkdate 2024 3 31) Hok eq_refl eq_refl
           (mkexpense 2 "Rent" 900 "2024-03-02" "")).
Defined.

Lemma summary_categories start_date end_date d c :
  In c (map fst (get_summary_range start_date end_date d))
  <-> exists r, In r (expenses d) /\ date_between start_date end_date r = true
                /\ e_category r = c.
Proof.
  unfold get_summary_range.
  rewrite (perm_In_iff _ _ c (Permutation_map fst (sort_by_perm total_before _))).
  destruct (group_sum_spec (filter (date_between start_date end_date) (expenses d)))
    as (_ & Hkeys & _).
  rewrite Hkeys, in_map_iff. split.
  - intros (r & Hc & Hin). apply filter_In in Hin. exists r. tauto.
  - intros (r & Hin & Hb & Hc). exists r. split; [exact Hc|].
    apply filter_In. tauto.
Qed.

(** X8: on a well-formed store the weekly summary has a row for a category
    exactly when some record of that category is dated within the seven days
    that end today, and the monthly summary exactly when some record of it is
    dated from the first of this month to today. *)
Theorem summary_period_covers_its_days (today : date) (d : db) :
  valid today = true -> 6 < toordinal today -> store_ok d ->
  (exists rows,
     get_summary_period today "weekly" d = Ok rows
     /\ forall c, In c (map fst rows)
          <-> exists r dr, In r (expenses d) /\ e_category r = c
                /\ valid dr = true /\ e_date r = strftime dr
                /\ toordinal today - 6 <= toordinal dr <= toordinal today)
  /\ (exists rows,
        get_summary_period today "monthly" d = Ok rows
        /\ forall c, In c (map fst rows)
             <-> exists r dr, In r (expenses d) /\ e_category r = c
                   /\ valid dr = true /\ e_date r = strftime dr
                   /\ year dr = year today /\ month dr = month today
                   /\ day dr <= day today).
Proof.
  intros Hv H6 Hok. pose proof (toordinal_bounds today Hv) as Hb.
  split.
  - pose proof (sub_days_in_range today 6 ltac:(lia)) as Hsub.
    set (start := fromordinal (toordinal today - 6)) in *.
    assert (valid start = true) as Hvs by (apply fromordinal_valid; lia).
    assert (toordinal start = toordinal today - 6) as Hts
      by (apply toordinal_fromordinal; lia).
    eexists. split.
    + unfold get_summary_period. rewrite period_range_weekly, Hsub. reflexivity.
    + intros c. cbn [fst snd]. rewrite summary_categories. split.
      * intros (r & Hin & Hbt & Hc).
        apply (date_between_calendar d start today r Hok Hvs Hv Hin) in Hbt.
        destruct Hbt as (dr & Hdr & Er & Hrange).
        exists r, dr. rewrite Hts in Hrange. tauto.
      * intros (r & dr & Hin & Hc & Hdr & Er & Hrange).
        exists r. split; [exact Hin|]. split; [|exact Hc].
        apply (date_between_calendar d start today r Hok Hvs Hv Hin).
        exists dr. rewrite Hts. tauto.
  - pose proof (replace_day1_valid today Hv) as Hv1.
    eexists. split.
    + unfold get_summary_period. rewrite period_range_monthly. reflexivity.
    + intros c. cbn [fst snd]. rewrite summary_categories.
      assert (forall dr, valid dr = true ->
                (toordinal (replace_day1 today) <= toordinal dr <= toordinal today
                 <-> year dr = year today /\ month dr = month today
                     /\ day dr <= day today)) as Hmonth.
      { intros dr Hdr.
        pose proof (toordinal_compare (replace_day1 today) dr Hv1 Hdr) as C1.
        pose proof (toordinal_compare dr today Hdr Hv) as C2.
        unfold valid in Hdr. apply valid_ymd_spec in Hdr.
        cbn [replace_day1 year month day] in C1.
        destruct (Z.compare_spec (toordinal (replace_day1 today)) (toordinal dr));
          destruct (Z.compare_spec (toordinal dr) (toordinal today));
          destruct (Z.compare_spec (year today) (year dr));
          destruct (Z.compare_spec (month today) (month dr));
          destruct (Z.compare_spec (year dr) (year today));
          destruct (Z.compare_spec (month dr) (month today));
          destruct (Z.compare_spec 1 (day dr));
          destruct (Z.compare_spec (day dr) (day today));
          try discriminate; try lia. }
      split.
      * intros (r & Hin & Hbt & Hc).
        apply (date_between_calendar d _ today r Hok Hv1 Hv Hin) in Hbt.
        destruct Hbt as (dr & Hdr & Er & Hrange).
        exists r, dr. apply (Hmonth dr Hdr) in Hrange. tauto.
      * intros (r & dr & Hin & Hc & Hdr & Er & Hrange).
        exists r. split; [exact Hin|]. split; [|exact Hc].
        apply (date_between_calendar d _ today r Hok Hv1 Hv Hin).
        exists dr. split; [exact Hdr|]. split; [exact Er|].
        apply (Hmonth dr Hdr). tauto.
Qed.

Lemma store_ok_example_march_db : store_ok example_march_db.
Proof.
  unfold example_march_db. cbv zeta.
  apply store_ok_add; [reflexivity|]. apply store_ok_add; [reflexivity|].
  apply store_ok_set_budget, store_ok_init.
Qed.

Lemma summary_period_covers_its_days_witness :
  valid (mkdate 2024 3 3) = true
  /\ 6 < toordinal (mkdate 2024 3 3)
  /\ store_ok example_march_db
  /\ exists rows,
       get_summary_period (mkdate 2024 3 3) "weekly" example_march_db = Ok rows
       /\ In "Rent" (map fst rows).
Proof.
  split; [reflexivity|]. split; [reflexivity|].
  split; [exact store_ok_example_march_db|].
  destruct (proj1 (summary_period_covers_its_days (mkdate 2024 3 3)
                     example_march_db eq_refl eq_refl store_ok_example_march_db))
    as (rows & Hrows & Hcat).
  exists rows. split; [exact Hrows|].
  apply Hcat.
  exists (mkexpense 2 "Rent" 900 "2024-03-02" ""), (mkdate 2024 3 2).
  split; [right; left; reflexivity|].
  split; [reflexivity|]. split; [reflexivity|]. split; [reflexivity|].
  split; [intros H; discriminate H | intros H; discriminate H].
Defined.

(* ------------------------------------------------------------------ *)
(** ** Totals *)

Lemma strftime_leb_refl dt : String.leb (strftime dt) (strftime dt) = true.
Proof. unfold String.leb. now rewrite string_compare_refl. Qed.

Lemma first_of_month_leb today :
  valid today = true ->
  String.leb (strftime (replace_day1 today)) (strftime today) = true.
Proof.
  intros Hv. apply (strftime_leb _ _ (replace_day1_valid today Hv) Hv).
  unfold valid in Hv. apply valid_ymd_spec in Hv.
  unfold toordinal, ymd2ord, replace_day1. cbn [year month day]. lia.
Qed.

(** X10: an expense added with no date is dated today, so it always counts in
    the month-to-date total: the total after the [Add] is the total before
    plus the amount, and the warning is returned exactly when a budget is
    configured and that sum exceeds it. *)
Theorem add_today_counts_in_month_to_date today category amount note d w d' :
  valid today = true ->
  add_expense_db today category amount "" note d = (Ok w, d') ->
  (get_monthly_total today d' == get_monthly_total today d + amount)%Q
  /\ ((exists msg, w = Some msg)
      <-> exists b, get_budget_limit d = Some b
                    /\ (b < get_monthly_total today d + amount)%Q).
Proof.
  intros Hv Hadd.
  assert (get_monthly_total today d' == get_monthly_total today d + amount)%Q as Ht.
  { pose proof Hadd as Hadd'. unfold add_expense_db in Hadd'. cbn [String.eqb] in Hadd'.
    injection Hadd' as _ <-.
    rewrite !get_monthly_total_month_to_date.
    unfold month_to_date, insert_expense. cbn [expenses].
    rewrite filter_app. cbn [filter].
    unfold date_between at 2. cbn [e_date].
    rewrite (first_of_month_leb today Hv), strftime_leb_refl. cbn [andb].
    rewrite map_app. cbn [map e_amount].
    unfold Qsum. rewrite fold_right_app. cbn [fold_right].
    generalize (map e_amount
                  (filter (date_between (strftime (replace_day1 today))
                                        (strftime today)) (expenses d))).
    intros l. induction l as [|x l IH]; cbn; [ring|]. rewrite IH. ring. }
  split; [exact Ht|].
  apply add_expense_db_ok in Hadd. destruct Hadd as (_ & Hb & Hw).
  rewrite Hb in Hw. destruct (get_budget_limit d) as [b|].
  - destruct (Qltb b _) eqn:E; subst w.
    + apply Qltb_lt in E. rewrite Ht in E. split; eauto.
    + split; [intros [msg H]; discriminate|].
      intros (b' & [= <-] & Hlt). rewrite <- Ht in Hlt.
      apply Qltb_lt in Hlt. congruence.
  - subst w.
    split; [intros [msg H]; discriminate | intros (b & H & _); discriminate].
Qed.

Lemma add_today_counts_in_month_to_date_witness :
  valid (mkdate 2024 3 3) = true
  /\ (get_monthly_total (mkdate 2024 3 3)
        (snd (add_expense_db (mkdate 2024 3 3) "Food" 10 "" "" example_march_db))
      == get_monthly_total (mkdate 2024 3 3) example_march_db + 10)%Q.
Proof.
  split; [reflexivity|].
  exact (proj1 (add_today_counts_in_month_to_date (mkdate 2024 3 3) "Food" 10%Q ""
                  example_march_db (Some (warning_message 960 500)) _
                  eq_refl eq_refl)).
Defined.

(* ------------------------------------------------------------------ *)
(** ** The front ends *)

Lemma add_expense_db_raise today category amount date_str note d e d' :
  add_expense_db today category amount date_str note d = (Raise e, d') ->
  d' = d /\ e = ValueError "Date must be in YYYY-MM-DD format"
  /\ date_str <> "" /\ strptime date_str = None.
Proof.
  unfold add_expense_db.
  destruct (String.eqb_spec date_str "") as [-> | Hne]; [discriminate|].
  destruct (strptime date_str); [discriminate|].
  intros [= <- <-]. tauto.
Qed.

Section FrontEndFacts.

Context {FT : FloatText}.

(** X11: [cli_add] either prints one line starting [Error adding expense:]
    and leaves the store as it was (the amount is not a number, or the date is
    given and does not parse), or it prints the confirmation, followed by the
    budget warning if [add_expense_db] returned one, and the store is the one
    [add_expense_db] left, with one more record. *)
Theorem cli_add_outcomes today cat amt note date d :
  let out := fst (cli_add today cat amt note date d) in
  let d' := snd (cli_add today cat amt note date d) in
  (d' = d
   /\ (exists text, out = [[Lit "Error adding expense:"; Lit " "; Lit text]])
   /\ (float_of_text amt = None \/ (date <> "" /\ strptime date = None)))
  \/ (exists a w,
        float_of_text amt = Some a
        /\ add_expense_db today cat a date note d = (Ok w, d')
        /\ out = [Lit "✅ Expense added."]
                 :: match w with Some m => [m] | None => [] end
        /\ exists stored,
             expenses d'
             = (expenses d
                ++ [mkexpense (sqlite_sequence d + 1) cat a stored note])%list).
Proof.
  cbv zeta. unfold cli_add, float_of_input.
  destruct (float_of_text amt) as [a|] eqn:Ea.
  - destruct (add_expense_db today cat a date note d) as [[w|e] d'] eqn:E.
    + right. exists a, w. cbn [fst snd]. split; [reflexivity|].
      split; [exact E|]. split; [reflexivity|].
      apply add_expense_db_ok in E. destruct E as ([stored ->] & _).
      exists stored. reflexivity.
    + left. cbn [fst snd].
      apply add_expense_db_raise in E. destruct E as (-> & -> & Hne & Hp).
      split; [reflexivity|]. split; [eauto|]. right. tauto.
  - left. cbn [fst snd]. split; [reflexivity|]. split; [eauto|]. now left.
Qed.

(** X12: [add_expense_gui] changes the store only when it shows the
    "Added" or the "Budget Exceeded" dialog, and then by one record whose
    category is the text entered, which is not empty; with an empty category
    or amount, an amount that is no number or a date that does not parse it
    shows an error and the store is as it was.  The warning dialog is shown
    exactly when [add_expense_db] returned a warning. *)
Theorem add_expense_gui_outcomes today cat amt date note d :
  let dlg := fst (add_expense_gui today cat amt date note d) in
  let d' := snd (add_expense_gui today cat amt date note d) in
  match dlg with
  | showerror _ _ =>
      d' = d
      /\ (cat = "" \/ amt = "" \/ float_of_text amt = None
          \/ (date <> "" /\ strptime date = None))
  | showwarning _ text =>
      cat <> "" /\ amt <> ""
      /\ exists a, float_of_text amt = Some a
                   /\ add_expense_db today cat a date note d = (Ok (Some text), d')
  | showinfo _ _ =>
      cat <> "" /\ amt <> ""
      /\ exists a, float_of_text amt = Some a
                   /\ add_expense_db today cat a date note d = (Ok None, d')
  end
  /\ (forall r, In r (expenses d') -> ~ In r (expenses d) ->
        e_category r = cat /\ cat <> "").
Proof.
  cbv zeta. unfold add_expense_gui, float_of_input.
  destruct (String.eqb_spec cat "") as [Hc | Hc]; cbn [orb].
  { cbn [fst snd]. split; [tauto|]. intros r H1 H2. contradiction. }
  destruct (String.eqb_spec amt "") as [Ha | Ha].
  { cbn [fst snd]. split; [tauto|]. intros r H1 H2. contradiction. }
  destruct (float_of_text amt) as [a|] eqn:Ea.
  - destruct (add_expense_db today cat a date note d) as [[[w|]|e] d'] eqn:E;
      cbn [fst snd].
    + split; [eauto|].
      apply add_expense_db_ok in E. destruct E as ([stored ->] & _).
      intros r Hin Hnot. cbn in Hin. apply in_app_iff in Hin.
      destruct Hin as [Hin | [<- | []]]; [contradiction | now split].
    + split; [eauto|].
      apply add_expense_db_ok in E. destruct E as ([stored ->] & _).
      intros r Hin Hnot. cbn in Hin. apply in_app_iff in Hin.
      destruct Hin as [Hin | [<- | []]]; [contradiction | now split].
    + apply add_expense_db_raise in E. destruct E as (-> & -> & Hne & Hp).
      split; [tauto|]. intros r H1 H2. contradiction.
  - cbn [fst snd]. split; [tauto|]. intros r H1 H2. contradiction.
Qed.

(** X13: [cli_set_budget] with a text that is no number prints
    [Invalid input] and leaves the store as it was; with a number it makes that
    number the budget, zero and negative numbers included, and leaves the
    expenses alone. *)
Theorem cli_set_budget_outcomes amt d :
  match float_of_text amt with
  | None => cli_set_budget amt d = ([[Lit "Invalid input"]], d)
  | Some a =>
      fst (cli_set_budget amt d) = [[Lit "✅ Budget set to ₹"; Lit amt]]
      /\ get_budget_limit (snd (cli_set_budget amt d)) = Some a
      /\ expenses (snd (cli_set_budget amt d)) = expenses d
  end.
Proof.
  unfold cli_set_budget, float_of_input.
  destruct (float_of_text amt) as [a|]; [|reflexivity].
  cbn [fst snd]. split; [reflexivity|]. split; [|reflexivity].
  apply settings_get_put_same.
Qed.

(** X16: the graphical export writes a file only when a file name was chosen
    and, if a date range was asked for, both dates were given; the file then
    reads back as the header row followed by the rows of exactly the records
    dated in the range (all the records when no range was asked for), newest
    first.  A range with one date missing gives the error dialog and no file. *)
Theorem export_csv_gui_outcomes fn res start end_ d :
  let dlg := fst (export_csv_gui fn res start end_ d) in
  let file := snd (export_csv_gui fn res start end_ d) in
  match file with
  | Some text =>
      fn <> ""
      /\ dlg = Some (showinfo "Exported" [Lit "Saved to "; Lit fn])
      /\ if res then
           exists s e, start = Some s /\ end_ = Some e /\ s <> "" /\ e <> ""
             /\ reader text
                = Some (csv_header
                        :: map row_fields
                             (sort_by entry_before
                                (filter (date_between s e) (expenses d))))
         else
           reader text
           = Some (csv_header :: map row_fields (sort_by entry_before (expenses d)))
  | None =>
      (fn = "" /\ dlg = None)
      \/ (res = true
          /\ dlg = Some (showerror "Error" [Lit "Start and end date required"])
          /\ (start = None \/ start = Some "" \/ end_ = None \/ end_ = Some ""))
  end.
Proof.
  cbv zeta. unfold export_csv_gui.
  destruct (String.eqb_spec fn "") as [Hfn | Hfn]; [cbn; tauto|].
  destruct res.
  - destruct start as [s|]; [|cbn; tauto].
    destruct end_ as [e|]; [|cbn [truthy_str negb orb fst snd]].
    + unfold truthy_str.
      destruct (String.eqb_spec s "") as [-> | Hs]; [cbn; tauto|].
      destruct (String.eqb_spec e "") as [-> | He]; [cbn; tauto|].
      cbn [negb orb fst snd]. split; [exact Hfn|]. split; [reflexivity|].
      exists s, e. repeat split; try assumption.
      rewrite export_csv_rows, reader_writerows.
      unfold get_entries_range. now rewrite (both_given_nonempty s e Hs He).
    + rewrite orb_true_r. cbn [fst snd]. right. tauto.
  - cbn [fst snd]. split; [exact Hfn|]. split; [reflexivity|].
    now rewrite export_csv_rows, reader_writerows.
Qed.

End FrontEndFacts.

(** X14: [set_budget_gui] sets the budget to the number entered unless the
    dialog was cancelled or the number is zero, in which case nothing happens;
    so it never stores a zero budget. *)
Theorem set_budget_gui_outcomes (amt : option Q) (d : db) :
  match amt with
  | Some a =>
      if Qeq_bool a 0 then set_budget_gui amt d = (None, d)
      else set_budget_gui amt d
           = (Some (showinfo "Budget Set" [Lit "Budget set to ₹"; Num a]),
              set_budget_limit a d)
           /\ get_budget_limit (snd (set_budget_gui amt d)) = Some a
  | None => set_budget_gui amt d = (None, d)
  end
  /\ (forall b, get_budget_limit (snd (set_budget_gui amt d)) = Some b ->
        (b == 0)%Q -> get_budget_limit d = Some b).
Proof.
  unfold set_budget_gui, truthy_float.
  destruct amt as [a|]; [|split; [reflexivity | intros b H _; exact H]].
  destruct (Qeq_bool a 0) eqn:E; cbn [negb fst snd].
  - split; [reflexivity | intros b H _; exact H].
  - split; [split; [reflexivity | apply settings_get_put_same]|].
    intros b H Hz. unfold get_budget_limit, set_budget_limit in H.
    cbn [settings] in H. rewrite settings_get_put_same in H.
    injection H as <-. apply Qeq_bool_iff in Hz. congruence.
Qed.

(** X17: [delete_selected] changes the store only when a row is selected and
    the deletion is confirmed; the refreshed table then shows the rows it
    showed before, in the same order of dates and ids, without the selected
    id.  With no row selected it shows an error. *)
Theorem delete_selected_outcomes (selection : option Z) (answer : bool) (d : db) :
  match selection with
  | None =>
      delete_selected selection answer d
      = (Some (showerror "Error" [Lit "Select a row to delete"]), d)
  | Some entry_id =>
      if answer then
        fst (delete_selected selection answer d)
        = Some (showinfo "Deleted" [Lit "Entry deleted"])
        /\ (forall r, In r (get_entries_range None None
                              (snd (delete_selected selection answer d)))
                      <-> In r (get_entries_range None None d)
                          /\ e_id r <> entry_id)
        /\ StronglySorted newer_first
             (get_entries_range None None (snd (delete_selected selection answer d)))
      else delete_selected selection answer d = (None, d)
  end.
Proof.
  unfold delete_selected. destruct selection as [entry_id|]; [|reflexivity].
  destruct answer; [|reflexivity]. cbn [fst snd].
  split; [reflexivity|]. split; [|apply entries_sorted].
  intros r. unfold get_entries_range. cbn [both_given].
  rewrite !sort_by_In. cbn [delete_entry_db expenses].
  rewrite filter_In, negb_true_iff, Z.eqb_neq. reflexivity.
Qed.

Lemma show_summary_gui_ok today period d rows labels :
  show_summary_gui today period d = Ok (rows, labels) ->
  get_summary_period today period d = Ok rows
  /\ labels = [Lit "TOTAL: "; Num (summary_total rows)]
              :: gui_budget_labels (get_budget_limit d) (summary_total rows).
Proof.
  unfold show_summary_gui.
  destruct (get_summary_period today period d) as [rows'|e]; cbn [bind];
    [|discriminate].
  intros [= <- <-]. split; reflexivity.
Qed.

Lemma budget_lines_labels budget total x :
  (In [Lit "⚠️ WARNING: Expenses exceeded budget by "; Num x; Lit nl]
      (budget_lines budget total)
   <-> In [Lit "⚠️ Exceeded by "; Num x] (gui_budget_labels budget total))
  /\ (In [Lit "  Budget Limit: "; Num x] (budget_lines budget total)
      <-> In [Lit "Budget Limit: "; Num x] (gui_budget_labels budget total)).
Proof.
  unfold budget_lines, gui_budget_labels, exceeded_line.
  destruct budget as [b|]; [|cbn; tauto].
  destruct (truthy_float b); [|cbn; tauto].
  destruct (Qltb b total); cbn [In]; split; split;
    intros H; repeat (destruct H as [H | H]); try discriminate H; try contradiction;
    injection H as <-; auto.
Qed.

(** X15: the two summaries agree.  For the same period and store either both
    raise the same error, or the window of [show_summary_gui] and the print-out
    of [cli_show_summary] show the same category rows, the same total, the
    same budget and the same excess: the "Exceeded by" label is there exactly
    when the warning line is printed, with the same amount. *)
Theorem summary_front_ends_agree (today : date) (period : string) (d : db) :
  match cli_show_summary today period d, show_summary_gui today period d with
  | Ok lines, Ok (rows, labels) =>
      get_summary_period today period d = Ok rows
      /\ (forall c t, In [Lit "  "; Lit c; Lit ": "; Num t] lines <-> In (c, t) rows)
      /\ In [Lit "  TOTAL: "; Num (summary_total rows)] lines
      /\ In [Lit "TOTAL: "; Num (summary_total rows)] labels
      /\ (forall b, In [Lit "  Budget Limit: "; Num b] lines
                    <-> In [Lit "Budget Limit: "; Num b] labels)
      /\ (forall x,
            In [Lit "⚠️ WARNING: Expenses exceeded budget by "; Num x; Lit nl] lines
            <-> In [Lit "⚠️ Exceeded by "; Num x] labels)
  | Raise e1, Raise e2 => e1 = e2
  | _, _ => False
  end.
Proof.
  destruct (cli_show_summary today period d) as [lines|e1] eqn:Ec;
    destruct (show_summary_gui today period d) as [[rows labels]|e2] eqn:Eg.
  - apply cli_show_summary_ok in Ec. destruct Ec as (rows' & Hr' & ->).
    apply show_summary_gui_ok in Eg. destruct Eg as (Hr & ->).
    rewrite Hr in Hr'. injection Hr' as <-.
    split; [exact Hr|].
    set (bl := budget_lines (get_budget_limit d) (summary_total rows)).
    set (gl := gui_budget_labels (get_budget_limit d) (summary_total rows)).
    assert (forall line,
              In line
                ([[Lit nl; Lit (capitalize period); Lit " summary (";
                   Lit (strftime today); Lit "):"]]
                 ++ (if match rows with [] => true | _ => false end
                     then [[Lit "No expenses found for this period."]] else [])
                 ++ map (fun row => [Lit "  "; Lit (fst row); Lit ": "; Num (snd row)])
                        rows
                 ++ [[Lit "  TOTAL: "; Num (summary_total rows)]]
                 ++ bl ++ [[]])%list
              <-> line = [Lit nl; Lit (capitalize period); Lit " summary (";
                          Lit (strftime today); Lit "):"]
                  \/ (rows = [] /\ line = [Lit "No expenses found for this period."])
                  \/ (exists row, In row rows
                        /\ line = [Lit "  "; Lit (fst row); Lit ": "; Num (snd row)])
                  \/ line = [Lit "  TOTAL: "; Num (summary_total rows)]
                  \/ In line bl
                  \/ line = []) as Hlines.
    { intros line. rewrite !in_app_iff, in_map_iff. cbn [In].
      destruct rows as [|row0 rows0]; cbn [In];
        intuition (try congruence; try discriminate; eauto);
        match goal with
        | H : exists _, _ |- _ => destruct H as (? & ? & ?); eauto
        end. }
    assert (forall line, In line bl ->
              List.length line = 2%nat \/ List.length line = 3%nat) as Hbl.
    { intros line. unfold bl, budget_lines.
      destruct (get_budget_limit d) as [b|]; [|intros []].
      destruct (truthy_float b); [|intros []].
      destruct (Qltb b _); cbn [In]; intros H;
        repeat (destruct H as [H | H]); try contradiction; subst line; auto. }
    split; [|split; [|split; [|split]]].
    + intros c t. rewrite Hlines. split.
      * intros [H | [[_ H] | [(row & Hin & H) | [H | [H | H]]]]];
          try discriminate H.
        -- injection H as -> ->. now destruct row.
        -- apply Hbl in H. cbn in H. destruct H; discriminate.
      * intros Hin. right. right. left. exists (c, t). now split.
    + apply Hlines. tauto.
    + now left.
    + intros b. rewrite Hlines. cbn [In].
      pose proof (proj2 (budget_lines_labels (get_budget_limit d)
                           (summary_total rows) b)) as Hbg.
      fold bl gl in Hbg. split.
      * intros [H | [[_ H] | [(row & _ & H) | [H | [H | H]]]]];
          try discriminate H. right. now apply Hbg.
      * intros [H | H]; [discriminate H|].
        right. right. right. right. left. now apply Hbg.
    + intros x. rewrite Hlines. cbn [In].
      pose proof (proj1 (budget_lines_labels (get_budget_limit d)
                           (summary_total rows) x)) as Hbg.
      fold bl gl in Hbg. split.
      * intros [H | [[_ H] | [(row & _ & H) | [H | [H | H]]]]];
          try discriminate H. right. now apply Hbg.
      * intros [H | H]; [discriminate H|].
        right. right. right. right. left. now apply Hbg.
  - apply cli_show_summary_ok in Ec. destruct Ec as (rows' & Hr' & _).
    unfold show_summary_gui in Eg. rewrite Hr' in Eg. discriminate.
  - apply show_summary_gui_ok in Eg. destruct Eg as (Hr & _).
    unfold cli_show_summary in Ec. rewrite Hr in Ec. discriminate.
  - unfold cli_show_summary in Ec. unfold show_summary_gui in Eg.
    destruct (get_summary_period today period d); cbn [bind] in *;
      [discriminate | congruence].
Qed.

Lemma get_summary_range_nil start_date end_date d :
  get_summary_range start_date end_date d = []
  <-> forall r, In r (expenses d) -> date_between start_date end_date r = false.
Proof.
  split.
  - intros Hnil r Hin. destruct (date_between start_date end_date r) eqn:E;
      [|reflexivity].
    exfalso.
    assert (In (e_category r) (map fst (get_summary_range start_date end_date d)))
      as H by (apply summary_categories; eauto).
    now rewrite Hnil in H.
  - intros Hnone. destruct (get_summary_range start_date end_date d) as [|[c t] l] eqn:E;
      [reflexivity|].
    exfalso.
    assert (In c (map fst (get_summary_range start_date end_date d))) as H
      by (rewrite E; now left).
    apply summary_categories in H. destruct H as (r & Hin & Hb & _).
    rewrite (Hnone r Hin) in Hb. discriminate.
Qed.

(** X18: [cli_show_summary] raises [ValueError("Unknown period")], printing
    nothing, for a period other than [weekly] and [monthly]; otherwise it
    prints [No expenses found for this period.] exactly when no record is
    dated in the period, and the total it then prints is 0. *)
Theorem cli_show_summary_empty_and_unknown (today : date) (d : db) :
  (forall period, period <> "weekly" -> period <> "monthly" ->
     cli_show_summary today period d = Raise (ValueError "Unknown period"))
  /\ (forall period lines rows,
        cli_show_summary today period d = Ok lines ->
        get_summary_period today period d = Ok rows ->
        (In [Lit "No expenses found for this period."] lines <-> rows = [])
        /\ (rows = [] -> In [Lit "  TOTAL: "; Num 0] lines))
  /\ (forall rows,
        get_summary_period today "monthly" d = Ok rows ->
        (rows = []
         <-> forall r, In r (expenses d) ->
               ~ in_date_range (strftime (replace_day1 today)) (strftime today) r)).
Proof.
  split; [|split].
  - intros period Hw Hm. unfold cli_show_summary, get_summary_period.
    now rewrite (period_range_other today period Hw Hm).
  - intros period lines rows Hc Hr.
    apply cli_show_summary_ok in Hc. destruct Hc as (rows' & Hr' & ->).
    rewrite Hr in Hr'. injection Hr' as <-. split.
    + rewrite !in_app_iff, in_map_iff. cbn [In]. split.
      * intros [H | [H | [H | [H | [H | H]]]]].
        -- destruct H as [H | []]. discriminate H.
        -- destruct rows; [reflexivity | destruct H].
        -- destruct H as (row & H & _). discriminate H.
        -- destruct H as [H | []]. discriminate H.
        -- exfalso. unfold budget_lines in H.
           destruct (get_budget_limit d) as [b|]; [|exact H].
           destruct (truthy_float b); [|exact H].
           destruct (Qltb b _); cbn [In] in H;
             repeat (destruct H as [H | H]); try discriminate H; exact H.
        -- destruct H as [H | []]. discriminate H.
      * intros ->. right. left. now left.
    + intros ->. rewrite !in_app_iff. right. right. right. left. now left.
  - intros rows Hr. unfold get_summary_period in Hr.
    rewrite period_range_monthly in Hr. cbn [bind fst snd] in Hr.
    injection Hr as <-. rewrite get_summary_range_nil. split.
    + intros H r Hin Hb. apply date_between_spec in Hb.
      rewrite (H r Hin) in Hb. discriminate.
    + intros H r Hin. destruct (date_between _ _ r) eqn:E; [|reflexivity].
      apply date_between_spec in E. exfalso. exact (H r Hin E).
Qed.

(* ------------------------------------------------------------------ *)
(** ** Listing a range, and totals under deletion *)

Section SortFilter.

Context {A : Type} (before : A -> A -> bool) (p : A -> bool).

Hypothesis before_total : forall a b, before a b = true \/ before b a = true.
Hypothesis before_trans :
  forall a b c, before a b = true -> before b c = true -> before a c = true.

Lemma insert_by_head x l :
  Forall (fun z => before x z = true) l -> insert_by before x l = x :: l.
Proof.
  destruct l as [|y l]; [reflexivity|].
  intros H. inversion H as [|? ? Hy _]; subst. cbn. now rewrite Hy.
Qed.

Lemma filter_insert_by x l :
  StronglySorted (fun a b => before a b = true) l ->
  filter p (insert_by before x l)
  = if p x then insert_by before x (filter p l) else filter p l.
Proof.
  induction 1 as [|y l Hs IH Hy]; cbn [insert_by filter].
  - now destruct (p x).
  - destruct (before x y) eqn:E; cbn [filter].
    + destruct (p x); [|reflexivity].
      destruct (p y); cbn [insert_by]; [now rewrite E|].
      symmetry. apply insert_by_head.
      apply Forall_forall. intros z Hz. apply filter_In in Hz.
      destruct Hz as [Hz _]. rewrite Forall_forall in Hy.
      eapply before_trans; [exact E | now apply Hy].
    + rewrite IH. destruct (p x), (p y); cbn [insert_by]; try reflexivity.
      now rewrite E.
Qed.

Lemma sort_by_filter l :
  sort_by before (filter p l) = filter p (sort_by before l).
Proof.
  induction l as [|x l IH]; [reflexivity|].
  cbn [sort_by fold_right filter].
  fold (sort_by before l).
  rewrite (filter_insert_by x _ (sort_by_sorted before before_total before_trans l)).
  destruct (p x); cbn [sort_by fold_right]; fold (sort_by before (filter p l));
    now rewrite IH.
Qed.

End SortFilter.

(** X19: listing a range is listing everything and keeping the records dated
    in the range: the same records in the same order. *)
Theorem get_entries_range_is_filtered_listing (s e : string) (d : db) :
  s <> "" -> e <> "" ->
  get_entries_range (Some s) (Some e) d
  = filter (date_between s e) (get_entries_range None None d).
Proof.
  intros Hs He. unfold get_entries_range.
  rewrite (both_given_nonempty s e Hs He). cbn [both_given].
  apply sort_by_filter; [apply entry_before_total | apply entry_before_trans].
Qed.

Lemma get_entries_range_is_filtered_listing_witness :
  "2024-03-02" <> "" /\ "2024-03-31" <> ""
  /\ get_entries_range (Some "2024-03-02") (Some "2024-03-31") example_march_db_after
     = filter (date_between "2024-03-02" "2024-03-31")
              (get_entries_range None None example_march_db_after).
Proof.
  split; [discriminate|]. split; [discriminate|].
  apply get_entries_range_is_filtered_listing; discriminate.
Defined.

Lemma month_to_date_insert today category amount stored note d :
  (month_to_date today (insert_expense category amount stored note d)
   == month_to_date today d
      + (if date_between (strftime (replace_day1 today)) (strftime today)
              (mkexpense (sqlite_sequence d + 1) category amount stored note)
         then amount else 0))%Q.
Proof.
  unfold month_to_date, insert_expense. cbn [expenses].
  rewrite filter_app, map_app. cbn [filter].
  set (l := map e_amount (filter _ (expenses d))).
  destruct (date_between _ _ _); cbn [map e_amount]; unfold Qsum;
    rewrite fold_right_app; cbn [fold_right];
    induction l as [|x l IH]; cbn [fold_right]; try ring;
    rewrite IH; ring.
Qed.

Lemma filter_delete_outside {A} (inr keep : A -> bool) l :
  (forall x, In x l -> keep x = false -> inr x = false) ->
  filter inr (filter keep l) = filter inr l.
Proof.
  induction l as [|x l IH]; intros H; [reflexivity|]. cbn [filter].
  assert (filter inr (filter keep l) = filter inr l) as IH'
    by (apply IH; intros y Hy; apply H; now right).
  destruct (keep x) eqn:Ek; cbn [filter]; rewrite IH'; [reflexivity|].
  now rewrite (H x (or_introl eq_refl) Ek).
Qed.

(** X20: deleting an id none of whose records is dated in the current month
    to date changes nothing the budget check sees: the month-to-date total is
    the same, and an [Add] that follows returns the same warning (or none) as
    it would have returned without the delete. *)
Theorem delete_outside_month_keeps_total (today : date) (entry_id : Z) (d : db) :
  (forall r, In r (expenses d) -> e_id r = entry_id ->
     date_between (strftime (replace_day1 today)) (strftime today) r = false) ->
  get_monthly_total today (delete_entry_db entry_id d) = get_monthly_total today d
  /\ forall category amount date_str note,
       fst (add_expense_db today category amount date_str note
              (delete_entry_db entry_id d))
       = fst (add_expense_db today category amount date_str note d).
Proof.
  intros Hout.
  assert (filter (date_between (strftime (replace_day1 today)) (strftime today))
            (expenses (delete_entry_db entry_id d))
          = filter (date_between (strftime (replace_day1 today)) (strftime today))
              (expenses d)) as Hsame.
  { cbn [delete_entry_db expenses]. apply filter_delete_outside.
    intros r Hin Hk. apply Hout; [exact Hin|].
    apply negb_false_iff in Hk. now apply Z.eqb_eq. }
  split.
  - unfold get_monthly_total. now rewrite Hsame.
  - intros category amount date_str note. unfold add_expense_db.
    destruct (if (date_str =? "")%string then Ok (strftime today)
              else match strptime date_str with
                   | Some dt => Ok (strftime dt)
                   | None => Raise (ValueError "Date must be in YYYY-MM-DD format")
                   end) as [stored|e]; [|reflexivity].
    cbn [fst].
    assert (get_monthly_total today
              (insert_expense category amount stored note
                 (delete_entry_db entry_id d))
            = get_monthly_total today
                (insert_expense category amount stored note d)) as ->.
    { unfold get_monthly_total, insert_expense.
      cbn [expenses sqlite_sequence delete_entry_db] in *.
      rewrite !filter_app. now rewrite Hsame. }
    reflexivity.
Qed.

Lemma delete_outside_month_keeps_total_witness :
  (forall r, In r (expenses example_march_db_after) -> e_id r = 3 ->
     date_between (strftime (replace_day1 (mkdate 2024 3 2)))
                  (strftime (mkdate 2024 3 2)) r = false)
  /\ get_monthly_total (mkdate 2024 3 2) (delete_entry_db 3 example_march_db_after)
     = get_monthly_total (mkdate 2024 3 2) example_march_db_after.
Proof.
  assert (forall r, In r (expenses example_march_db_after) -> e_id r = 3 ->
            date_between (strftime (replace_day1 (mkdate 2024 3 2)))
                         (strftime (mkdate 2024 3 2)) r = false) as Hout.
  { intros r [<- | [<- | [<- | []]]] Hid;
      try discriminate Hid; reflexivity. }
  split; [exact Hout|].
  exact (proj1 (delete_outside_month_keeps_total (mkdate 2024 3 2) 3
                  example_march_db_after Hout)).
Defined.

(** X21: once the month-to-date total is above the budget, every further
    successful [Add] of an amount that is not negative returns the warning,
    whatever the date of the expense. *)
Theorem add_over_budget_keeps_warning
  today category amount date_str note d b w d' :
  get_budget_limit d = Some b ->
  (b < get_monthly_total today d)%Q ->
  (0 <= amount)%Q ->
  add_expense_db today category amount date_str note d = (Ok w, d') ->
  w = Some (warning_message (get_monthly_total today d') b)
  /\ (get_monthly_total today d <= get_monthly_total today d')%Q.
Proof.
  intros Hb Hover Hamt Hadd.
  apply add_expense_db_ok in Hadd. destruct Hadd as ([stored ->] & Hb' & Hw).
  set (d' := insert_expense category amount stored note d) in *.
  assert (get_monthly_total today d <= get_monthly_total today d')%Q as Hle.
  { rewrite !get_monthly_total_month_to_date. unfold d'.
    rewrite month_to_date_insert.
    destruct (date_between _ _ _).
    - rewrite <- (Qplus_0_r (month_to_date today d)) at 1.
      apply Qplus_le_r. exact Hamt.
    - rewrite Qplus_0_r. apply Qle_refl. }
  split; [|exact Hle].
  rewrite Hb', Hb in Hw. rewrite Hw.
  assert (Qltb b (get_monthly_total today d') = true) as ->; [|reflexivity].
  apply Qltb_lt. eapply Qlt_le_trans; eassumption.
Qed.

Lemma add_over_budget_keeps_warning_witness :
  get_budget_limit example_march_db = Some 500%Q
  /\ (500 < get_monthly_total (mkdate 2024 3 3) example_march_db)%Q
  /\ (0 <= 10)%Q
  /\ fst (add_expense_db (mkdate 2024 3 3) "Food" 10 "2024-01-15" "" example_march_db)
     = Ok (Some (warning_message
                   (get_monthly_total (mkdate 2024 3 3)
                      (snd (add_expense_db (mkdate 2024 3 3) "Food" 10 "2024-01-15"
                              "" example_march_db)))
                   500)).
Proof.
  split; [reflexivity|]. split; [reflexivity|]. split; [discriminate|].
  pose proof (add_over_budget_keeps_warning (mkdate 2024 3 3) "Food" 10%Q
                "2024-01-15" "" example_march_db 500%Q
                (Some (warning_message 950 500))
                (snd (add_expense_db (mkdate 2024 3 3) "Food" 10 "2024-01-15" ""
                        example_march_db))
                eq_refl eq_refl ltac:(discriminate) eq_refl) as [H _].
  rewrite <- H. reflexivity.
Defined.
